(** * tjutil.hf_cache: locating the HuggingFace cache directories

    A shallow embedding of [src/tjutil/hf_cache.py].  The module reads the
    process environment and the filesystem, writes log records, and (in the
    two snapshot resolvers) opens one text file.  The embedding makes these
    explicit: a function of the module is a computation over a read-only
    [world] that yields an [outcome] (a returned value or a raised exception)
    together with the list of filesystem and logging [event]s it performed,
    in program order. *)

From Stdlib Require Import Ascii.
From stdpp Require Import base option list strings gmap.

(** ** Strings: the [str] methods and [posixpath] functions the module calls

    A Python [str] is modelled by the bytes of its UTF-8 encoding.  The
    characters the module and text mode search for ('/', line feed and
    carriage return) are single bytes that occur in no multi-byte sequence, so
    replacing them byte by byte is replacing them character by character. *)

Module Str.

(** [s.startswith(p)] *)
Definition startswith (s p : string) : bool := String.prefix p s.

(** [s.endswith(c)] for a one-character [c]. *)
Fixpoint endswith_char (s : string) (c : ascii) : bool :=
  match s with
  | EmptyString => false
  | String a EmptyString => bool_decide (a = c)
  | String _ s' => endswith_char s' c
  end.

(** [s.replace(old, new)]: every non-overlapping occurrence of [old],
    scanning from the left, is replaced by [new].  [skip] counts the
    characters of an occurrence that was just replaced and are still to be
    dropped.  For an empty [old] Python puts [new] before every character and
    at the end. *)
Fixpoint replace_from (old new : string) (skip : nat) (s : string) : string :=
  match s with
  | EmptyString => EmptyString
  | String c s' =>
      match skip with
      | S k => replace_from old new k s'
      | O =>
          if String.prefix old s
          then new +:+ replace_from old new (String.length old - 1) s'
          else String c (replace_from old new 0 s')
      end
  end.

Fixpoint intersperse_before (new s : string) : string :=
  match s with
  | EmptyString => new
  | String c s' => new +:+ String c (intersperse_before new s')
  end.

Definition replace (s old new : string) : string :=
  match old with
  | EmptyString => intersperse_before new s
  | _ => replace_from old new 0 s
  end.

(** [s.rstrip()]: drop the trailing run of whitespace characters.  On the
    bytes of an ASCII text these are space, tab, line feed, vertical tab,
    form feed, carriage return and the four separators 0x1c-0x1f. *)
Definition isspace (c : ascii) : bool :=
  let n := nat_of_ascii c in
  (n =? 32)%nat || ((9 <=? n)%nat && (n <=? 13)%nat)
  || ((28 <=? n)%nat && (n <=? 31)%nat).

Fixpoint rstrip (s : string) : string :=
  match s with
  | EmptyString => EmptyString
  | String c s' =>
      match rstrip s' with
      | EmptyString => if isspace c then EmptyString else String c EmptyString
      | r => String c r
      end
  end.

End Str.

Module OsPath.

(** One round of the loop of [posixpath.join]: a component that starts with
    the separator discards what was joined so far; otherwise it is appended,
    with a separator unless the path is empty or already ends with one. *)
Definition join_step (path b : string) : string :=
  if Str.startswith b "/" then b
  else if bool_decide (path = "") || Str.endswith_char path "/"%char then path +:+ b
  else path +:+ "/" +:+ b.

(** [os.path.join(a, *p)] on a POSIX system. *)
Definition join (a : string) (p : list string) : string :=
  fold_left join_step p a.

End OsPath.

(** ** The world the module runs in *)

(** A regular file, as [open(path, "r", encoding="utf-8")] finds it: the
    characters it stores (line endings as they are on disk), or the reason
    the open or the read fails. *)
Inductive file_data :=
  | Text (contents : string)
  | NoPermission
  | NotUtf8.

(** What a path resolves to ([os.stat] follows symbolic links). *)
Inductive node :=
  | Dir
  | File (data : file_data).

(** [environ] is [os.environ]; [home] is the value of
    [os.path.expanduser("~")]; [fs] maps a path to the node it resolves to, a
    path that does not resolve being absent from the map. *)
Record world := World {
  environ : gmap string string;
  home : string;
  fs : gmap string node
}.

(** The exceptions of [open] and [read], by class.  A path that does not
    resolve raises [FileNotFoundError], or [NotADirectoryError] when a
    component of it is a regular file; the flat [fs] does not tell the two
    apart, and [NoSuchPathError] stands for either. *)
Inductive exn :=
  | NoSuchPathError
  | IsADirectoryError
  | PermissionError
  | UnicodeDecodeError.

Inductive level := WARNING | ERROR.

(** The observable actions, in program order. *)
Inductive event :=
  | PathExists (p : string)        (* os.path.exists(p) *)
  | PathIsdir (p : string)         (* os.path.isdir(p) *)
  | Open (p : string)              (* open(p, "r", encoding="utf-8") *)
  | Log (l : level) (msg : string) (* logger.warning(msg), logger.error(msg) *).

Inductive outcome (A : Type) :=
  | Returned (a : A)
  | Raised (e : exn).
Arguments Returned {A} a.
Arguments Raised {A} e.

(** ** The monad of computations *)

Definition io (A : Type) : Type := world -> outcome A * list event.

Definition io_ret {A} (a : A) : io A := fun _ => (Returned a, []).

Definition io_bind {A B} (m : io A) (k : A -> io B) : io B := fun w =>
  match m w with
  | (Returned a, t) => let '(r, t') := k a w in (r, t ++ t')
  | (Raised e, t) => (Raised e, t)
  end.

Declare Scope io_scope.
Delimit Scope io_scope with io.
Bind Scope io_scope with io.
Notation "x <- m ;; k" := (io_bind m (fun x => k))
  (at level 100, m at next level, right associativity) : io_scope.
Notation "m ;; k" := (io_bind m (fun _ => k))
  (at level 100, right associativity) : io_scope.
Local Open Scope io_scope.

Definition result {A} (x : outcome A * list event) : outcome A := fst x.
Definition trace {A} (x : outcome A * list event) : list event := snd x.

(** ** Primitive actions *)

Definition exists_in (w : world) (p : string) : bool :=
  match fs w !! p with Some _ => true | None => false end.

Definition isdir_in (w : world) (p : string) : bool :=
  match fs w !! p with Some Dir => true | _ => false end.

(** [k in os.environ], then [os.environ[k]]. *)
Definition os_environ_get (k : string) : io (option string) :=
  fun w => (Returned (environ w !! k), []).

(** [os.path.expanduser("~")] *)
Definition os_path_expanduser_home : io string :=
  fun w => (Returned (home w), []).

Definition os_path_exists (p : string) : io bool :=
  fun w => (Returned (exists_in w p), [PathExists p]).

Definition os_path_isdir (p : string) : io bool :=
  fun w => (Returned (isdir_in w p), [PathIsdir p]).

Definition logger_warning (msg : string) : io unit :=
  fun _ => (Returned (), [Log WARNING msg]).

Definition logger_error (msg : string) : io unit :=
  fun _ => (Returned (), [Log ERROR msg]).

(** The one-character strings ["\n"] and ["\r"]. *)
Definition LF : string := String "010"%char EmptyString.
Definition CR : string := String "013"%char EmptyString.

(** Text mode with the default [newline=None]: on reading, each of the line
    endings CR LF, CR and LF becomes one line feed. *)
Fixpoint universal_newlines (s : string) : string :=
  match s with
  | EmptyString => EmptyString
  | String c s' =>
      if bool_decide (c = "013"%char) then
        String "010"
          match s' with
          | EmptyString => EmptyString
          | String d s'' =>
              if bool_decide (d = "010"%char) then universal_newlines s''
              else universal_newlines s'
          end
      else String c (universal_newlines s')
  end.

(** [with open(p, "r", encoding="utf-8") as f: f.read()] *)
Definition open_read (p : string) : io string := fun w =>
  (match fs w !! p with
   | Some (File (Text s)) => Returned (universal_newlines s)
   | Some (File NoPermission) => Raised PermissionError
   | Some (File NotUtf8) => Raised UnicodeDecodeError
   | Some Dir => Raised IsADirectoryError
   | None => Raised NoSuchPathError
   end, [Open p]).

(** [os.path.exists(p) and os.path.isdir(p)]: [and] does not evaluate its
    second operand when the first is false. *)
Definition exists_and_isdir (p : string) : io bool :=
  e <- os_path_exists p ;;
  if e then os_path_isdir p else io_ret false.

(** The block each base resolver repeats for each of its candidates:
<<
    if os.path.exists(result) and os.path.isdir(result):
        return result
    else:
        logger.warning(msg)
    ... rest of the function ...
>> *)
Definition return_if_dir (result_ msg : string) (rest : io (option string))
  : io (option string) :=
  ok <- exists_and_isdir result_ ;;
  if ok then io_ret (Some result_) else logger_warning msg ;; rest.

(** ** The four base resolvers *)

Definition find_hf_home_dir : io (option string) :=
  let default :=
    h <- os_path_expanduser_home ;;
    let result_ := OsPath.join h [".cache"; "huggingface"] in
    return_if_dir result_
      ("Invalid default HuggingFace home directory: " +:+ result_)
      (io_ret None) in
  v <- os_environ_get "HF_HOME" ;;
  match v with
  | Some result_ =>
      return_if_dir result_ ("Invalid HF_HOME directory: " +:+ result_) default
  | None => default
  end.

Definition find_hf_hub_dir : io (option string) :=
  let default :=
    h <- os_path_expanduser_home ;;
    let result_ := OsPath.join h [".cache"; "huggingface"; "hub"] in
    return_if_dir result_
      ("Invalid default HuggingFace Hub directory: " +:+ result_)
      (io_ret None) in
  let secondary :=
    v <- os_environ_get "HF_HOME" ;;
    match v with
    | Some hf_home =>
        let result_ := OsPath.join hf_home ["hub"] in
        return_if_dir result_ ("Invalid HF_HOME directory: " +:+ result_) default
    | None => default
    end in
  v <- os_environ_get "HUGGINGFACE_HUB_CACHE" ;;
  match v with
  | Some result_ =>
      return_if_dir result_
        ("Invalid HUGGINGFACE_HUB_CACHE directory: " +:+ result_) secondary
  | None => secondary
  end.

Definition find_hf_datasets_dir : io (option string) :=
  let default :=
    h <- os_path_expanduser_home ;;
    let result_ := OsPath.join h [".cache"; "huggingface"; "datasets"] in
    return_if_dir result_
      ("Invalid default HuggingFace datasets directory: " +:+ result_)
      (io_ret None) in
  let secondary :=
    v <- os_environ_get "HF_HOME" ;;
    match v with
    | Some hf_home =>
        let result_ := OsPath.join hf_home ["datasets"] in
        return_if_dir result_ ("Invalid HF_HOME directory: " +:+ result_) default
    | None => default
    end in
  v <- os_environ_get "HF_DATASETS_CACHE" ;;
  match v with
  | Some result_ =>
      return_if_dir result_
        ("Invalid HF_DATASETS_CACHE directory: " +:+ result_) secondary
  | None => secondary
  end.

Definition find_xdg_cache_home : io (option string) :=
  let default :=
    h <- os_path_expanduser_home ;;
    let result_ := OsPath.join h [".cache"] in
    return_if_dir result_
      ("Invalid default XDG cache directory: " +:+ result_)
      (io_ret None) in
  v <- os_environ_get "XDG_CACHE_HOME" ;;
  match v with
  | Some result_ =>
      return_if_dir result_
        ("Invalid XDG_CACHE_HOME directory: " +:+ result_) default
  | None => default
  end.

(** ** The two snapshot resolvers *)

(** [model_path = "models--" + model.replace("/", "--")] *)
Definition model_path (model : string) : string :=
  "models--" +:+ Str.replace model "/" "--".

(** [dataset_path = "datasets--" + datasets.replace("/", "--")] *)
Definition dataset_path (datasets : string) : string :=
  "datasets--" +:+ Str.replace datasets "/" "--".

(** [find_model_dir] from its second test of [base_dir] on (the statement
    [if base_dir is None] after the nested fallbacks) to its end. *)
Definition find_model_dir_from (base_dir : option string) (model : string)
  : io (option string) :=
  match base_dir with
  | None =>
      logger_error "Could not find a suitable cache directory." ;; io_ret None
  | Some base_dir =>
      let model_dir := OsPath.join base_dir [model_path model] in
      e <- os_path_exists model_dir ;;
      if negb e then
        logger_error ("Model directory not found: " +:+ model_dir) ;; io_ret None
      else
        let model_dir := OsPath.join base_dir [model_path model] in
        e <- os_path_exists model_dir ;;
        if negb e then
          logger_error ("Model directory not found: " +:+ model_dir) ;;
          io_ret None
        else
          contents <- open_read (OsPath.join model_dir ["refs"; "main"]) ;;
          let oid := Str.replace contents LF "" in
          let lfs_dir := OsPath.join model_dir ["snapshots"; oid] in
          e <- os_path_exists lfs_dir ;;
          if negb e then
            logger_error ("Model directory not found: " +:+ lfs_dir) ;;
            io_ret None
          else io_ret (Some lfs_dir)
  end.

Definition find_model_dir (model : string) : io (option string) :=
  base_dir <- find_hf_hub_dir ;;
  match base_dir with
  | None =>
      hf_home <- find_hf_home_dir ;;
      match hf_home with
      | None =>
          xdg_cache_home <- find_xdg_cache_home ;;
          match xdg_cache_home with
          | None =>
              logger_error "Could not find a suitable cache directory." ;;
              io_ret None
          | Some xdg_cache_home =>
              find_model_dir_from
                (Some (OsPath.join xdg_cache_home ["huggingface"; "hub"])) model
          end
      | Some hf_home =>
          find_model_dir_from (Some (OsPath.join hf_home ["hub"])) model
      end
  | Some _ => find_model_dir_from base_dir model
  end.

(** [find_datasets_dir] from its second test of [base_dir] on. *)
Definition find_datasets_dir_from (base_dir : option string) (datasets : string)
  : io (option string) :=
  match base_dir with
  | None =>
      logger_error "Could not find a suitable cache directory." ;; io_ret None
  | Some base_dir =>
      let dataset_dir := OsPath.join base_dir [dataset_path datasets] in
      e <- os_path_exists dataset_dir ;;
      if negb e then
        logger_error ("Dataset directory not found: " +:+ dataset_dir) ;;
        io_ret None
      else
        e <- os_path_exists dataset_dir ;;
        if negb e then
          logger_error ("Datasets directory not found: " +:+ dataset_dir) ;;
          io_ret None
        else
          contents <- open_read (OsPath.join dataset_dir ["refs"; "main"]) ;;
          let oid := Str.replace contents LF "" in
          let lfs_dir := OsPath.join dataset_dir ["snapshots"; oid] in
          e <- os_path_exists lfs_dir ;;
          if negb e then
            logger_error ("Datasets directory not found: " +:+ lfs_dir) ;;
            io_ret None
          else io_ret (Some lfs_dir)
  end.

Definition find_datasets_dir (datasets : string) : io (option string) :=
  base_dir <- find_hf_datasets_dir ;;
  match base_dir with
  | None =>
      hf_home <- find_hf_home_dir ;;
      match hf_home with
      | None =>
          xdg_cache_home <- find_xdg_cache_home ;;
          match xdg_cache_home with
          | None =>
              logger_error "Could not find a suitable cache directory." ;;
              io_ret None
          | Some xdg_cache_home =>
              find_datasets_dir_from
                (Some (OsPath.join xdg_cache_home ["huggingface"; "datasets"]))
                datasets
          end
      | Some hf_home =>
          find_datasets_dir_from (Some (OsPath.join hf_home ["datasets"])) datasets
      end
  | Some _ => find_datasets_dir_from base_dir datasets
  end.

(** ** Sample worlds *)

Module Sample.

(** [HF_HOME=/tmp/hf], with the model [acme/widget] and the dataset
    [acme/rows] cached under it. *)
Definition env : gmap string string :=
  {[ "HOME" := "/home/u"; "HF_HOME" := "/tmp/hf" ]}.

Definition widget : string := "/tmp/hf/hub/models--acme--widget".
Definition rows : string := "/tmp/hf/datasets/datasets--acme--rows".

Definition tree : gmap string node :=
  list_to_map [
    ("/", Dir); ("/tmp", Dir); ("/tmp/hf", Dir); ("/tmp/hf/hub", Dir);
    (widget, Dir);
    (widget +:+ "/refs", Dir);
    (widget +:+ "/refs/main", File (Text ("abc123" +:+ LF)));
    (widget +:+ "/snapshots", Dir);
    (widget +:+ "/snapshots/abc123", Dir);
    ("/tmp/hf/datasets", Dir);
    (rows, Dir);
    (rows +:+ "/refs", Dir);
    (rows +:+ "/refs/main", File (Text ("fee1" +:+ LF)));
    (rows +:+ "/snapshots", Dir);
    (rows +:+ "/snapshots/fee1", Dir);
    ("/home", Dir); ("/home/u", Dir)
  ].

Definition w : world := World env "/home/u" tree.

(** Every candidate of every base resolver is a directory: the four primary
    variables are set, and the [HF_HOME] and default locations exist. *)
Definition env_all : gmap string string :=
  {[ "HOME" := "/home/u"; "HF_HOME" := "/tmp/hf";
     "HUGGINGFACE_HUB_CACHE" := "/opt/hub";
     "HF_DATASETS_CACHE" := "/opt/datasets";
     "XDG_CACHE_HOME" := "/opt/xdg" ]}.

Definition tree_all : gmap string node :=
  list_to_map [
    ("/opt", Dir); ("/opt/hub", Dir); ("/opt/datasets", Dir);
    ("/opt/xdg", Dir);
    ("/home/u/.cache", Dir); ("/home/u/.cache/huggingface", Dir);
    ("/home/u/.cache/huggingface/hub", Dir);
    ("/home/u/.cache/huggingface/datasets", Dir)
  ] ∪ tree.

Definition w_all : world := World env_all "/home/u" tree_all.

(** As [w_all], with the two primary cache variables naming paths that do
    not exist. *)
Definition env_stale : gmap string string :=
  <[ "HUGGINGFACE_HUB_CACHE" := "/gone/hub" ]>
    (<[ "HF_DATASETS_CACHE" := "/gone/datasets" ]> env_all).

Definition w_stale : world := World env_stale "/home/u" tree_all.

(** [HF_HOME] is a directory with nothing in it, and there is no
    [~/.cache]. *)
Definition tree_bare : gmap string node :=
  list_to_map [
    ("/", Dir); ("/tmp", Dir); ("/tmp/hf", Dir); ("/home", Dir);
    ("/home/u", Dir)
  ].

Definition w_bare : world := World env "/home/u" tree_bare.

(** No variable but [HOME] is set; only [~/.cache] exists. *)
Definition env_home_only : gmap string string := {[ "HOME" := "/home/u" ]}.

Definition tree_xdg : gmap string node :=
  list_to_map [
    ("/", Dir); ("/home", Dir); ("/home/u", Dir); ("/home/u/.cache", Dir)
  ].

Definition w_xdg : world := World env_home_only "/home/u" tree_xdg.

(** No variable but [HOME] is set and there is no [~/.cache]. *)
Definition tree_none : gmap string node :=
  list_to_map [ ("/", Dir); ("/home", Dir); ("/home/u", Dir) ].

Definition w_none : world := World env_home_only "/home/u" tree_none.

(** As [w], the pointer file holding a space before its line feed. *)
Definition w_spaced : world :=
  World env "/home/u"
    (<[ widget +:+ "/refs/main" := File (Text ("abc123 " +:+ LF)) ]>
       (<[ rows +:+ "/refs/main" := File (Text ("fee1 " +:+ LF)) ]> tree)).

(** As [w], without the snapshot directories. *)
Definition w_no_snapshot : world :=
  World env "/home/u"
    (delete (widget +:+ "/snapshots/abc123")
       (delete (rows +:+ "/snapshots/fee1") tree)).

(** As [w], without the pointer files. *)
Definition w_no_pointer : world :=
  World env "/home/u"
    (delete (widget +:+ "/refs/main") (delete (rows +:+ "/refs/main") tree)).

(** As [w], each snapshot path being a regular file. *)
Definition w_file_snapshot : world :=
  World env "/home/u"
    (<[ widget +:+ "/snapshots/abc123" := File (Text "") ]>
       (<[ rows +:+ "/snapshots/fee1" := File (Text "") ]> tree)).

(** As [w], the pointer file of each repository holding an absolute path that
    exists. *)
Definition w_absolute : world :=
  World env "/home/u"
    (<[ widget +:+ "/refs/main" := File (Text ("/srv/weights" +:+ LF)) ]>
       (<[ rows +:+ "/refs/main" := File (Text ("/srv/weights" +:+ LF)) ]>
          (<[ "/srv" := Dir ]> (<[ "/srv/weights" := Dir ]> tree)))).

(** As [w], the pointer files ending their line with CR LF. *)
Definition w_crlf : world :=
  World env "/home/u"
    (<[ widget +:+ "/refs/main" := File (Text ("abc123" +:+ CR +:+ LF)) ]>
       (<[ rows +:+ "/refs/main" := File (Text ("fee1" +:+ CR +:+ LF)) ]> tree)).

End Sample.

(** ** The table of base resolvers *)

Inductive resolver := HfHome | HfHub | HfDatasets | XdgCache.

Definition run (r : resolver) : io (option string) :=
  match r with
  | HfHome => find_hf_home_dir
  | HfHub => find_hf_hub_dir
  | HfDatasets => find_hf_datasets_dir
  | XdgCache => find_xdg_cache_home
  end.

(** The variable a resolver reads first. *)
Definition primary_var (r : resolver) : string :=
  match r with
  | HfHome => "HF_HOME"
  | HfHub => "HUGGINGFACE_HUB_CACHE"
  | HfDatasets => "HF_DATASETS_CACHE"
  | XdgCache => "XDG_CACHE_HOME"
  end.

(** The component a resolver joins to [HF_HOME] for its second candidate. *)
Definition secondary_subdir (r : resolver) : option string :=
  match r with
  | HfHub => Some "hub"
  | HfDatasets => Some "datasets"
  | HfHome | XdgCache => None
  end.

(** The components a resolver joins to the home directory for its last
    candidate. *)
Definition default_suffix (r : resolver) : list string :=
  match r with
  | HfHome => [".cache"; "huggingface"]
  | HfHub => [".cache"; "huggingface"; "hub"]
  | HfDatasets => [".cache"; "huggingface"; "datasets"]
  | XdgCache => [".cache"]
  end.

(** ** Predicates on worlds and traces *)

Definition is_directory (w : world) (p : string) : Prop := fs w !! p = Some Dir.

Definition valid_dir (w : world) (p : string) : bool :=
  exists_in w p && isdir_in w p.

(** The primary variable of [r] is set to a path that is a directory. *)
Definition primary_valid (r : resolver) (w : world) : bool :=
  match environ w !! primary_var r with
  | Some v => valid_dir w v
  | None => false
  end.

(** The filesystem probes of one [exists_and_isdir]. *)
Definition probes (w : world) (p : string) : list event :=
  if exists_in w p then [PathExists p; PathIsdir p] else [PathExists p].

(** [x] with the events [t] performed before it. *)
Definition after {A} (t : list event) (x : outcome A * list event)
  : outcome A * list event :=
  (fst x, t ++ snd x).

Definition is_open (e : event) : bool :=
  match e with Open _ => true | _ => false end.

(** The files a trace opened. *)
Definition opened (t : list event) : list event := List.filter is_open t.

(** ** The base resolvers as one search over a list of candidates *)

(** The text of the warning for a rejected default candidate, up to the path. *)
Definition default_warning (r : resolver) : string :=
  match r with
  | HfHome => "Invalid default HuggingFace home directory: "
  | HfHub => "Invalid default HuggingFace Hub directory: "
  | HfDatasets => "Invalid default HuggingFace datasets directory: "
  | XdgCache => "Invalid default XDG cache directory: "
  end.

(** The candidates of a resolver in the order it tries them, each with the
    warning logged when it is rejected. *)
Definition candidates (r : resolver) (w : world) : list (string * string) :=
  match environ w !! primary_var r with
  | Some v => [(v, "Invalid " +:+ primary_var r +:+ " directory: " +:+ v)]
  | None => []
  end
  ++ match secondary_subdir r, environ w !! "HF_HOME" with
     | Some sub, Some hf_home =>
         let c := OsPath.join hf_home [sub] in
         [(c, "Invalid HF_HOME directory: " +:+ c)]
     | _, _ => []
     end
  ++ [let c := OsPath.join (home w) (default_suffix r) in
      (c, default_warning r +:+ c)].

(** Try the candidates in order and return the first that is a directory. *)
Fixpoint first_valid (cs : list (string * string)) : io (option string) :=
  match cs with
  | [] => io_ret None
  | (p, msg) :: cs' => return_if_dir p msg (first_valid cs')
  end.

(** The first candidate that is a directory, as a function of the world. *)
Fixpoint pick (w : world) (cs : list (string * string)) : option string :=
  match cs with
  | [] => None
  | (p, _) :: cs' => if valid_dir w p then Some p else pick w cs'
  end.

(** The events of such a search. *)
Fixpoint search_trace (w : world) (cs : list (string * string)) : list event :=
  match cs with
  | [] => []
  | (p, msg) :: cs' =>
      if valid_dir w p then probes w p
      else probes w p ++ Log WARNING msg :: search_trace w cs'
  end.

(** ** The two snapshot resolvers side by side *)

Inductive repo_kind := Model | Dataset.

Definition find_dir (k : repo_kind) : string -> io (option string) :=
  match k with Model => find_model_dir | Dataset => find_datasets_dir end.

Definition find_dir_from (k : repo_kind)
  : option string -> string -> io (option string) :=
  match k with
  | Model => find_model_dir_from
  | Dataset => find_datasets_dir_from
  end.

(** The base resolver a snapshot resolver calls first. *)
Definition cache_resolver (k : repo_kind) : resolver :=
  match k with Model => HfHub | Dataset => HfDatasets end.

Definition cache_subdir (k : repo_kind) : string :=
  match k with Model => "hub" | Dataset => "datasets" end.

Definition repo_path (k : repo_kind) : string -> string :=
  match k with Model => model_path | Dataset => dataset_path end.

(** The base directory a snapshot resolver settles on: the nested tests on
    [base_dir], [hf_home] and [xdg_cache_home] at the head of
    [find_model_dir] and [find_datasets_dir]. *)
Definition base_dir (k : repo_kind) (w : world) : option string :=
  match result (run (cache_resolver k) w) with
  | Returned (Some b) => Some b
  | _ =>
      match result (run HfHome w) with
      | Returned (Some hf_home) => Some (OsPath.join hf_home [cache_subdir k])
      | _ =>
          match result (run XdgCache w) with
          | Returned (Some xdg_cache_home) =>
              Some (OsPath.join xdg_cache_home ["huggingface"; cache_subdir k])
          | _ => None
          end
      end
  end.

(** The events of that head. *)
Definition base_trace (k : repo_kind) (w : world) : list event :=
  trace (run (cache_resolver k) w)
  ++ match result (run (cache_resolver k) w) with
     | Returned (Some _) => []
     | _ =>
         trace (run HfHome w)
         ++ match result (run HfHome w) with
            | Returned (Some _) => []
            | _ => trace (run XdgCache w)
            end
     end.

(** The repository directory, its pointer file and the snapshot path for an
    object identifier, as the snapshot resolvers build them. *)
Definition repo_dir (k : repo_kind) (b ident : string) : string :=
  OsPath.join b [repo_path k ident].

Definition refs_main (d : string) : string := OsPath.join d ["refs"; "main"].

Definition snapshot_path (d oid : string) : string :=
  OsPath.join d ["snapshots"; oid].

(** The object identifier the code derives from the characters stored in
    the pointer file: the text [f.read()] gives for them, with every line feed
    replaced by nothing. *)
Definition oid_of (contents : string) : string :=
  Str.replace (universal_newlines contents) LF "".

(** The exception [open_read] raises on a node that is not a readable text
    file. *)
Definition read_error (n : option node) : option exn :=
  match n with
  | Some (File (Text _)) => None
  | Some (File NoPermission) => Some PermissionError
  | Some (File NotUtf8) => Some UnicodeDecodeError
  | Some Dir => Some IsADirectoryError
  | None => Some NoSuchPathError
  end.

(** The texts of the errors logged for a missing repository directory and a
    missing snapshot, up to the path. *)
Definition missing_repo_error (k : repo_kind) : string :=
  match k with
  | Model => "Model directory not found: "
  | Dataset => "Dataset directory not found: "
  end.

Definition missing_snapshot_error (k : repo_kind) : string :=
  match k with
  | Model => "Model directory not found: "
  | Dataset => "Datasets directory not found: "
  end.

Definition no_cache_error : string := "Could not find a suitable cache directory.".

(** ** The spec's reading of the string steps *)

(** Every ['/'] replaced by ["--"], character by character. *)
Fixpoint slashes_to_dashes (s : string) : string :=
  match s with
  | EmptyString => EmptyString
  | String c s' =>
      if bool_decide (c = "/"%char) then "--" +:+ slashes_to_dashes s'
      else String c (slashes_to_dashes s')
  end.

Definition repo_prefix (k : repo_kind) : string :=
  match k with Model => "models--" | Dataset => "datasets--" end.

(** Every line feed dropped, character by character. *)
Fixpoint drop_line_feeds (s : string) : string :=
  match s with
  | EmptyString => EmptyString
  | String c s' =>
      if bool_decide (c = "010"%char) then drop_line_feeds s'
      else String c (drop_line_feeds s')
  end.

(** Every line ending dropped: no carriage return and no line feed is kept,
    wherever it stands. *)
Fixpoint drop_line_endings (s : string) : string :=
  match s with
  | EmptyString => EmptyString
  | String c s' =>
      if bool_decide (c = "013"%char) || bool_decide (c = "010"%char)
      then drop_line_endings s'
      else String c (drop_line_endings s')
  end.

(** Every character of [s] is an ASCII character other than whitespace. *)
Fixpoint no_space (s : string) : bool :=
  match s with
  | EmptyString => true
  | String c s' =>
      (nat_of_ascii c <? 128)%nat && negb (Str.isspace c) && no_space s'
  end.

(** ** Further views of worlds, traces and strings *)

Definition is_log (e : event) : bool :=
  match e with Log _ _ => true | _ => false end.

Definition is_error (e : event) : bool :=
  match e with Log ERROR _ => true | _ => false end.

(** The log records of a trace, and its error records. *)
Definition logged (t : list event) : list event := List.filter is_log t.
Definition errors (t : list event) : list event := List.filter is_error t.

(** The warning a base resolver logs when it rejects a candidate. *)
Definition warning_of (c : string * string) : event := Log WARNING c.2.

(** [os.environ[k] = v] done before the call. *)
Definition set_env (k v : string) (w : world) : world :=
  World (<[ k := v ]> (environ w)) (home w) (fs w).

(** The variables the module looks up in [os.environ], and the one
    [os.path.expanduser] reads. *)
Definition consulted : list string :=
  ["HF_HOME"; "HUGGINGFACE_HUB_CACHE"; "HF_DATASETS_CACHE"; "XDG_CACHE_HOME";
   "HOME"].

(** [c in s] for a one-character [c]. *)
Fixpoint contains_char (c : ascii) (s : string) : bool :=
  match s with
  | EmptyString => false
  | String a s' => bool_decide (a = c) || contains_char c s'
  end.

(** The five ways a call of a snapshot resolver ends, each with the whole
    run it makes: no base directory, no repository directory, a pointer file
    that cannot be read, no snapshot, and the snapshot found. *)
Inductive find_dir_run (k : repo_kind) (ident : string) (w : world)
  : outcome (option string) * list event -> Prop :=
  | NoBase :
      base_dir k w = None ->
      find_dir_run k ident w
        (Returned None, base_trace k w ++ [Log ERROR no_cache_error])
  | NoRepo b :
      let d := repo_dir k b ident in
      base_dir k w = Some b ->
      exists_in w d = false ->
      find_dir_run k ident w
        (Returned None,
         base_trace k w
         ++ [PathExists d; Log ERROR (missing_repo_error k +:+ d)])
  | BadPointer b e :
      let d := repo_dir k b ident in
      base_dir k w = Some b ->
      exists_in w d = true ->
      read_error (fs w !! refs_main d) = Some e ->
      find_dir_run k ident w
        (Raised e,
         base_trace k w ++ [PathExists d; PathExists d; Open (refs_main d)])
  | NoSnapshot b contents :
      let d := repo_dir k b ident in
      let l := snapshot_path d (oid_of contents) in
      base_dir k w = Some b ->
      exists_in w d = true ->
      fs w !! refs_main d = Some (File (Text contents)) ->
      exists_in w l = false ->
      find_dir_run k ident w
        (Returned None,
         base_trace k w
         ++ [PathExists d; PathExists d; Open (refs_main d); PathExists l;
             Log ERROR (missing_snapshot_error k +:+ l)])
  | Found b contents :
      let d := repo_dir k b ident in
      let l := snapshot_path d (oid_of contents) in
      base_dir k w = Some b ->
      exists_in w d = true ->
      fs w !! refs_main d = Some (File (Text contents)) ->
      exists_in w l = true ->
      find_dir_run k ident w
        (Returned (Some l),
         base_trace k w
         ++ [PathExists d; PathExists d; Open (refs_main d); PathExists l]).

(** * Properties *)

(** ** Running the building blocks *)

Lemma valid_dir_true (w : world) (p : string) :
  valid_dir w p = true <-> is_directory w p.
Proof.
  unfold valid_dir, exists_in, isdir_in, is_directory.
  destruct (fs w !! p) as [[|d]|]; simpl; split; congruence.
Qed.

Lemma valid_dir_false (w : world) (p : string) :
  valid_dir w p = false <-> ~ is_directory w p.
Proof.
  rewrite <- valid_dir_true. destruct (valid_dir w p); split; congruence.
Qed.

Lemma after_nil {A} (x : outcome A * list event) : after [] x = x.
Proof. destruct x; reflexivity. Qed.

Lemma after_after {A} (t u : list event) (x : outcome A * list event) :
  after t (after u x) = after (t ++ u) x.
Proof. unfold after; simpl. by rewrite app_assoc. Qed.

Lemma result_after {A} (t : list event) (x : outcome A * list event) :
  result (after t x) = result x.
Proof. reflexivity. Qed.

Lemma trace_after {A} (t : list event) (x : outcome A * list event) :
  trace (after t x) = t ++ trace x.
Proof. reflexivity. Qed.

Lemma bind_returned {A B} (m : io A) (k : A -> io B) w a t :
  m w = (Returned a, t) -> io_bind m k w = after t (k a w).
Proof. unfold io_bind, after. intros ->. by destruct (k a w). Qed.

Lemma exists_and_isdir_run (w : world) (p : string) :
  exists_and_isdir p w = (Returned (valid_dir w p), probes w p).
Proof.
  unfold exists_and_isdir, io_bind, os_path_exists, os_path_isdir, valid_dir,
    probes, io_ret.
  by destruct (exists_in w p).
Qed.

Lemma return_if_dir_run (w : world) (p msg : string) rest :
  return_if_dir p msg rest w =
    if valid_dir w p then (Returned (Some p), probes w p)
    else after (probes w p ++ [Log WARNING msg]) (rest w).
Proof.
  unfold return_if_dir.
  rewrite (bind_returned _ _ _ _ _ (exists_and_isdir_run w p)).
  destruct (valid_dir w p).
  - unfold io_ret, after; simpl. by rewrite app_nil_r.
  - rewrite (bind_returned _ _ w () [Log WARNING msg]) by reflexivity.
    by rewrite after_after.
Qed.

Lemma first_valid_run (w : world) (cs : list (string * string)) :
  first_valid cs w = (Returned (pick w cs), search_trace w cs).
Proof.
  induction cs as [|[p msg] cs IH]; simpl; [done|].
  rewrite return_if_dir_run, IH.
  destruct (valid_dir w p); [done|].
  unfold after; simpl. by rewrite <- app_assoc.
Qed.

Lemma environ_get_bind {B} (k : string) (f : option string -> io B) w :
  io_bind (os_environ_get k) f w = f (environ w !! k) w.
Proof.
  rewrite (bind_returned _ _ w (environ w !! k) []) by reflexivity.
  apply after_nil.
Qed.

Lemma expanduser_bind {B} (f : string -> io B) w :
  io_bind os_path_expanduser_home f w = f (home w) w.
Proof.
  rewrite (bind_returned _ _ w (home w) []) by reflexivity.
  apply after_nil.
Qed.

(** Each base resolver is the search over its candidates. *)
Lemma run_first_valid (r : resolver) (w : world) :
  run r w = first_valid (candidates r w) w.
Proof.
  unfold candidates.
  destruct (environ w !! "HF_HOME") as [h|] eqn:Hh;
    destruct (environ w !! primary_var r) as [v|] eqn:Hp;
    destruct r; simplify_eq/=;
    unfold find_hf_home_dir, find_hf_hub_dir, find_hf_datasets_dir,
      find_xdg_cache_home;
    repeat (first [ rewrite return_if_dir_run | rewrite environ_get_bind
                  | rewrite expanduser_bind ]; rewrite ?Hp, ?Hh; simpl);
    reflexivity.
Qed.

Lemma run_eq (r : resolver) (w : world) :
  run r w = (Returned (pick w (candidates r w)), search_trace w (candidates r w)).
Proof. by rewrite run_first_valid, first_valid_run. Qed.

(** ** Running the snapshot resolvers *)

Lemma find_dir_split (k : repo_kind) (ident : string) (w : world) :
  find_dir k ident w
  = after (base_trace k w) (find_dir_from k (base_dir k w) ident w).
Proof.
  unfold base_dir, base_trace.
  rewrite (run_eq (cache_resolver k)), (run_eq HfHome), (run_eq XdgCache).
  unfold result, trace; simpl.
  destruct k; simpl; [unfold find_model_dir | unfold find_datasets_dir];
    change find_hf_hub_dir with (run HfHub);
    change find_hf_datasets_dir with (run HfDatasets);
    change find_hf_home_dir with (run HfHome);
    change find_xdg_cache_home with (run XdgCache);
    rewrite (bind_returned _ _ w _ _ (run_eq _ w));
    (destruct (pick w (candidates _ w)) as [b|];
      [ by rewrite app_nil_r | ]);
    rewrite (bind_returned _ _ w _ _ (run_eq HfHome w)), after_after;
    (destruct (pick w (candidates HfHome w)) as [h|];
      [ by rewrite app_nil_r | ]);
    rewrite (bind_returned _ _ w _ _ (run_eq XdgCache w)), after_after;
    rewrite <- app_assoc;
    by destruct (pick w (candidates XdgCache w)).
Qed.

Ltac run_from k :=
  destruct k; simpl;
  unfold find_model_dir_from, find_datasets_dir_from, io_bind, os_path_exists,
    open_read, logger_error, io_ret, repo_dir, refs_main, snapshot_path, oid_of
    in *; simpl in *.

Lemma find_dir_from_none (k : repo_kind) (ident : string) (w : world) :
  find_dir_from k None ident w = (Returned None, [Log ERROR no_cache_error]).
Proof. by destruct k. Qed.

Lemma find_dir_from_missing (k : repo_kind) (b ident : string) (w : world) :
  let d := repo_dir k b ident in
  exists_in w d = false ->
  find_dir_from k (Some b) ident w
  = (Returned None, [PathExists d; Log ERROR (missing_repo_error k +:+ d)]).
Proof. intros d Hd; subst d. run_from k; by rewrite Hd. Qed.

Lemma find_dir_from_unreadable (k : repo_kind) (b ident : string) (w : world) e :
  let d := repo_dir k b ident in
  exists_in w d = true ->
  read_error (fs w !! refs_main d) = Some e ->
  find_dir_from k (Some b) ident w
  = (Raised e, [PathExists d; PathExists d; Open (refs_main d)]).
Proof.
  intros d Hd He; subst d. run_from k; repeat (rewrite Hd; simpl);
    destruct (fs w !! _) as [[|[]]|]; by simplify_eq/=.
Qed.

Lemma find_dir_from_text (k : repo_kind) (b ident : string) (w : world) contents :
  let d := repo_dir k b ident in
  let l := snapshot_path d (oid_of contents) in
  exists_in w d = true ->
  fs w !! refs_main d = Some (File (Text contents)) ->
  find_dir_from k (Some b) ident w
  = if exists_in w l
    then (Returned (Some l),
          [PathExists d; PathExists d; Open (refs_main d); PathExists l])
    else (Returned None,
          [PathExists d; PathExists d; Open (refs_main d); PathExists l;
           Log ERROR (missing_snapshot_error k +:+ l)]).
Proof.
  intros d l Hd Hr; subst d l. run_from k; repeat (rewrite Hd; simpl);
    rewrite Hr; simpl; clear Hd; destruct (exists_in w _); reflexivity.
Qed.

(** ** Strings *)

Lemma prefix_char (o c : ascii) (s : string) :
  String.prefix (String o EmptyString) (String c s) = bool_decide (o = c).
Proof.
  change (String.prefix (String o EmptyString) (String c s))
    with (if Ascii.ascii_dec o c then String.prefix EmptyString s else false).
  destruct (Ascii.ascii_dec o c) as [->|Hne].
  - rewrite bool_decide_eq_true_2 by done. by destruct s.
  - by rewrite bool_decide_eq_false_2.
Qed.

Lemma replace_from_char (o c : ascii) (new s : string) :
  Str.replace_from (String o EmptyString) new 0 (String c s)
  = if bool_decide (o = c)
    then new +:+ Str.replace_from (String o EmptyString) new 0 s
    else String c (Str.replace_from (String o EmptyString) new 0 s).
Proof.
  rewrite <- prefix_char with (s := s). reflexivity.
Qed.

Lemma replace_slash (s : string) : Str.replace s "/" "--" = slashes_to_dashes s.
Proof.
  change (Str.replace s "/" "--")
    with (Str.replace_from (String "/" EmptyString) "--" 0 s).
  induction s as [|c s IH]; [done|].
  rewrite replace_from_char, IH.
  cbn [slashes_to_dashes]. by rewrite (bool_decide_ext (c = "/"%char) ("/"%char = c)).
Qed.

Lemma replace_line_feed (s : string) : Str.replace s LF "" = drop_line_feeds s.
Proof.
  change (Str.replace s LF "")
    with (Str.replace_from (String "010" EmptyString) "" 0 s).
  induction s as [|c s IH]; [done|].
  rewrite replace_from_char, IH.
  cbn [drop_line_feeds].
  by rewrite (bool_decide_ext (c = "010"%char) ("010"%char = c)).
Qed.

Lemma universal_newlines_other (c : ascii) (s : string) :
  c <> "013"%char ->
  universal_newlines (String c s) = String c (universal_newlines s).
Proof.
  intros Hc. cbn [universal_newlines]. by rewrite bool_decide_eq_false_2.
Qed.

Lemma universal_newlines_cr_lf (s : string) :
  universal_newlines (String "013" (String "010" s))
  = String "010" (universal_newlines s).
Proof. reflexivity. Qed.

Lemma universal_newlines_cr_other (d : ascii) (s : string) :
  d <> "010"%char ->
  universal_newlines (String "013" (String d s))
  = String "010" (universal_newlines (String d s)).
Proof.
  intros Hd.
  change (universal_newlines (String "013" (String d s)))
    with (String "010"
            (if bool_decide (d = "010"%char) then universal_newlines s
             else universal_newlines (String d s))).
  by rewrite bool_decide_eq_false_2.
Qed.

Lemma drop_line_endings_cons (c : ascii) (s : string) :
  drop_line_endings (String c s)
  = if bool_decide (c = "013"%char) || bool_decide (c = "010"%char)
    then drop_line_endings s else String c (drop_line_endings s).
Proof. reflexivity. Qed.

Lemma drop_line_feeds_cons (c : ascii) (s : string) :
  drop_line_feeds (String c s)
  = if bool_decide (c = "010"%char)
    then drop_line_feeds s else String c (drop_line_feeds s).
Proof. reflexivity. Qed.

(** Reading in text mode and dropping the line feeds is dropping every line
    ending of the stored characters. *)
Lemma drop_after_universal_newlines (s : string) :
  drop_line_feeds (universal_newlines s) = drop_line_endings s
  /\ forall c, drop_line_feeds (universal_newlines (String c s))
               = drop_line_endings (String c s).
Proof.
  induction s as [|d s [IH1 IH2]].
  - split; [done|]. intros c.
    destruct (decide (c = "013"%char)) as [->|Hc]; [done|].
    rewrite universal_newlines_other, drop_line_feeds_cons,
      drop_line_endings_cons by done.
    by rewrite (bool_decide_eq_false_2 (c = "013"%char)).
  - split; [apply IH2|]. intros c.
    destruct (decide (c = "013"%char)) as [->|Hc].
    + destruct (decide (d = "010"%char)) as [->|Hd].
      * rewrite universal_newlines_cr_lf. apply IH1.
      * rewrite universal_newlines_cr_other by done.
        rewrite drop_line_feeds_cons, (IH2 d). reflexivity.
    + rewrite universal_newlines_other, drop_line_feeds_cons,
        (drop_line_endings_cons c), (IH2 d) by done.
      by rewrite (bool_decide_eq_false_2 (c = "013"%char)).
Qed.

Lemma oid_of_eq (s : string) : oid_of s = drop_line_endings s.
Proof.
  unfold oid_of. rewrite replace_line_feed.
  apply drop_after_universal_newlines.
Qed.

(** ** The search over candidates *)

Lemma result_run (r : resolver) (w : world) :
  result (run r w) = Returned (pick w (candidates r w)).
Proof. by rewrite run_eq. Qed.

Lemma trace_run (r : resolver) (w : world) :
  trace (run r w) = search_trace w (candidates r w).
Proof. by rewrite run_eq. Qed.

Lemma pick_is_directory (w : world) (cs : list (string * string)) (p : string) :
  pick w cs = Some p -> is_directory w p.
Proof.
  induction cs as [|[c msg] cs IH]; simpl; [done|].
  destruct (valid_dir w c) eqn:Hc; [|done].
  intros [= <-]. by apply valid_dir_true.
Qed.

Lemma opened_app (t u : list event) : opened (t ++ u) = opened t ++ opened u.
Proof. apply List.filter_app. Qed.

Lemma opened_probes (w : world) (p : string) : opened (probes w p) = [].
Proof. unfold probes. by destruct (exists_in w p). Qed.

Lemma opened_search_trace (w : world) (cs : list (string * string)) :
  opened (search_trace w cs) = [].
Proof.
  induction cs as [|[c msg] cs IH]; simpl; [done|].
  destruct (valid_dir w c); rewrite ?opened_app, opened_probes; [done|].
  done.
Qed.

(** The primary candidate, when the variable is set, is tried first. *)
Lemma pick_primary (r : resolver) (w : world) (v : string) :
  environ w !! primary_var r = Some v -> is_directory w v ->
  pick w (candidates r w) = Some v.
Proof.
  intros Hv Hd. unfold candidates. rewrite Hv. simpl.
  apply valid_dir_true in Hd. by rewrite Hd.
Qed.

(** Without a valid primary candidate the search starts at the second
    stage. *)
Lemma pick_skip_primary (r : resolver) (w : world) :
  primary_valid r w = false ->
  pick w (candidates r w)
  = pick w (match secondary_subdir r, environ w !! "HF_HOME" with
            | Some sub, Some hf_home =>
                let c := OsPath.join hf_home [sub] in
                [(c, "Invalid HF_HOME directory: " +:+ c)]
            | _, _ => []
            end
            ++ [let c := OsPath.join (home w) (default_suffix r) in
                (c, default_warning r +:+ c)]).
Proof.
  unfold primary_valid, candidates.
  destruct (environ w !! primary_var r) as [v|]; [|done].
  cbn [app pick]. by intros ->.
Qed.

(** The primary candidate is invalid when the variable is unset or its value
    is not a directory, and only then. *)
Lemma primary_valid_false (r : resolver) (w : world) :
  primary_valid r w = false
  <-> environ w !! primary_var r = None
      \/ exists v, environ w !! primary_var r = Some v /\ ~ is_directory w v.
Proof.
  unfold primary_valid.
  destruct (environ w !! primary_var r) as [v|]; [|by intuition].
  rewrite valid_dir_false. split.
  - intros Hv. right. by exists v.
  - intros [|[v' [[= <-] Hv]]]; done.
Qed.

(** ** The base resolvers *)

(** C2. For each of the four base resolvers, when its primary variable
    (HF_HOME, HUGGINGFACE_HUB_CACHE, HF_DATASETS_CACHE, XDG_CACHE_HOME) is set
    to a path that exists and is a directory, the resolver returns exactly
    that value. *)
Theorem primary_identity (r : resolver) (w : world) (v : string) :
  environ w !! primary_var r = Some v ->
  is_directory w v ->
  result (run r w) = Returned (Some v).
Proof.
  intros Hv Hd. by rewrite result_run, (pick_primary r w v).
Qed.

Lemma primary_identity_witness :
  result (find_hf_home_dir Sample.w_all) = Returned (Some "/tmp/hf")
  /\ result (find_hf_hub_dir Sample.w_all) = Returned (Some "/opt/hub")
  /\ result (find_hf_datasets_dir Sample.w_all) = Returned (Some "/opt/datasets")
  /\ result (find_xdg_cache_home Sample.w_all) = Returned (Some "/opt/xdg").
Proof.
  split; [|split; [|split]].
  - apply (primary_identity HfHome Sample.w_all); reflexivity.
  - apply (primary_identity HfHub Sample.w_all); reflexivity.
  - apply (primary_identity HfDatasets Sample.w_all); reflexivity.
  - apply (primary_identity XdgCache Sample.w_all); reflexivity.
Defined.

(** C1. For find_hf_hub_dir and find_hf_datasets_dir (the resolvers with a
    second stage) the order of the candidates is strict, in every world: a
    primary candidate that is a directory is returned whatever else exists,
    and, when the primary variable is unset or names no directory, an
    HF_HOME-derived candidate that is a directory is returned whether or not
    the fixed default exists. *)
Theorem priority_is_strict (r : resolver) (sub : string) (w : world) :
  secondary_subdir r = Some sub ->
  (forall v,
      environ w !! primary_var r = Some v -> is_directory w v ->
      result (run r w) = Returned (Some v))
  /\ (forall hf_home,
        primary_valid r w = false ->
        environ w !! "HF_HOME" = Some hf_home ->
        is_directory w (OsPath.join hf_home [sub]) ->
        result (run r w) = Returned (Some (OsPath.join hf_home [sub]))).
Proof.
  intros Hsub. split.
  - intros v Hv Hd. by rewrite result_run, (pick_primary r w v).
  - intros hf_home Hp Hh Hd.
    rewrite result_run, pick_skip_primary, Hsub, Hh by done.
    apply valid_dir_true in Hd. cbn [app pick]. by rewrite Hd.
Qed.

Lemma priority_is_strict_witness :
  (is_directory Sample.w_all "/opt/hub"
   /\ is_directory Sample.w_all "/tmp/hf/hub"
   /\ is_directory Sample.w_all "/home/u/.cache/huggingface/hub")
  /\ result (find_hf_hub_dir Sample.w_all) = Returned (Some "/opt/hub")
  /\ result (find_hf_hub_dir Sample.w_stale) = Returned (Some "/tmp/hf/hub")
  /\ result (find_hf_datasets_dir Sample.w_all) = Returned (Some "/opt/datasets")
  /\ result (find_hf_datasets_dir Sample.w_stale)
     = Returned (Some "/tmp/hf/datasets").
Proof.
  split; [by vm_compute|].
  split; [|split; [|split]].
  - apply (proj1 (priority_is_strict HfHub "hub" Sample.w_all eq_refl));
      reflexivity.
  - apply (proj2 (priority_is_strict HfHub "hub" Sample.w_stale eq_refl)
             "/tmp/hf"); reflexivity.
  - apply (proj1 (priority_is_strict HfDatasets "datasets" Sample.w_all eq_refl));
      reflexivity.
  - apply (proj2 (priority_is_strict HfDatasets "datasets" Sample.w_stale eq_refl)
             "/tmp/hf"); reflexivity.
Defined.

(** C3, as the spec states it, fails: HF_HOME being set to an existing
    directory does not make the hub resolver return HF_HOME joined with
    "hub".  In [Sample.w_bare] HUGGINGFACE_HUB_CACHE is unset and HF_HOME is
    the directory /tmp/hf, but /tmp/hf/hub does not exist and the resolver
    returns None. *)
Lemma hf_home_directory_not_enough :
  ~ (forall (r : resolver) (sub : string) (w : world) (hf_home : string),
        secondary_subdir r = Some sub ->
        primary_valid r w = false ->
        environ w !! "HF_HOME" = Some hf_home ->
        is_directory w hf_home ->
        result (run r w) = Returned (Some (OsPath.join hf_home [sub]))).
Proof.
  intros H.
  specialize (H HfHub "hub" Sample.w_bare "/tmp/hf" eq_refl eq_refl eq_refl eq_refl).
  vm_compute in H. discriminate H.
Qed.

(** C3, amended.  For find_hf_hub_dir (resp. find_hf_datasets_dir), when the
    primary variable is unset or names no directory and HF_HOME is set, the
    candidate that is validated is HF_HOME joined with "hub" (resp.
    "datasets"), not HF_HOME itself: the result is that joined path when it
    exists and is a directory, otherwise the fixed default when that is a
    directory, otherwise None. *)
Theorem secondary_stage (r : resolver) (sub : string) (w : world)
    (hf_home : string) :
  secondary_subdir r = Some sub ->
  primary_valid r w = false ->
  environ w !! "HF_HOME" = Some hf_home ->
  result (run r w)
  = Returned
      (if valid_dir w (OsPath.join hf_home [sub])
       then Some (OsPath.join hf_home [sub])
       else if valid_dir w (OsPath.join (home w) (default_suffix r))
            then Some (OsPath.join (home w) (default_suffix r))
            else None).
Proof.
  intros Hsub Hp Hh.
  rewrite result_run, pick_skip_primary, Hsub, Hh by done.
  reflexivity.
Qed.

Lemma secondary_stage_witness :
  result (find_hf_hub_dir Sample.w) = Returned (Some "/tmp/hf/hub")
  /\ result (find_hf_datasets_dir Sample.w) = Returned (Some "/tmp/hf/datasets")
  /\ result (find_hf_hub_dir Sample.w_bare) = Returned None.
Proof.
  split; [|split].
  - apply (secondary_stage HfHub "hub" Sample.w "/tmp/hf"); reflexivity.
  - apply (secondary_stage HfDatasets "datasets" Sample.w "/tmp/hf");
      reflexivity.
  - apply (secondary_stage HfHub "hub" Sample.w_bare "/tmp/hf"); reflexivity.
Defined.

(** ** The snapshot resolvers: finding the base directory *)

Lemma append_assoc (a b c : string) : (a +:+ b) +:+ c = a +:+ b +:+ c.
Proof.
  induction a as [|x a IH]; [done|].
  change (String x ((a +:+ b) +:+ c) = String x (a +:+ b +:+ c)).
  by rewrite IH.
Qed.

Lemma append_not_empty (a b : string) :
  b <> EmptyString -> a +:+ b <> EmptyString.
Proof. by destruct a. Qed.

Lemma endswith_char_cons (x : ascii) (s : string) (c : ascii) :
  s <> EmptyString ->
  Str.endswith_char (String x s) c = Str.endswith_char s c.
Proof. by destruct s. Qed.

Lemma endswith_char_app (a b : string) (c : ascii) :
  b <> EmptyString ->
  Str.endswith_char (a +:+ b) c = Str.endswith_char b c.
Proof.
  intros Hb. induction a as [|x a IH]; [done|].
  change (String x a +:+ b) with (String x (a +:+ b)).
  by rewrite endswith_char_cons by (by apply append_not_empty).
Qed.

(** Joining the components "huggingface" and [sub] one after the other is
    joining the single component "huggingface/sub". *)
Lemma join_huggingface (x sub : string) :
  Str.startswith sub "/" = false ->
  OsPath.join x ["huggingface"; sub] = OsPath.join x ["huggingface/" +:+ sub].
Proof.
  intros Hsub. unfold OsPath.join; cbn [fold_left].
  assert (Hj : exists y, OsPath.join_step x "huggingface" = y +:+ "huggingface"
                         /\ OsPath.join_step x ("huggingface/" +:+ sub)
                            = y +:+ "huggingface/" +:+ sub).
  { unfold OsPath.join_step.
    change (Str.startswith "huggingface" "/") with false.
    change (Str.startswith ("huggingface/" +:+ sub) "/") with false.
    cbn iota.
    destruct (bool_decide (x = "") || Str.endswith_char x "/").
    - by exists x.
    - exists (x +:+ "/"). by rewrite !append_assoc. }
  destruct Hj as (y & -> & ->).
  unfold OsPath.join_step at 1. rewrite Hsub.
  rewrite endswith_char_app by done.
  rewrite bool_decide_eq_false_2 by (by apply append_not_empty).
  change (Str.endswith_char "huggingface" "/") with false. cbn [orb].
  change ("huggingface/" +:+ sub) with ("huggingface" +:+ "/" +:+ sub).
  by rewrite append_assoc.
Qed.

(** C4. find_model_dir (resp. find_datasets_dir) takes its base directory
    from the hub-cache (resp. datasets-cache) resolver; when that yields None,
    from the cache-home resolver joined with "hub" (resp. "datasets"); when
    that yields None too, from the XDG resolver joined with "huggingface" and
    "hub" (resp. "datasets"), which is the path joined with
    "huggingface/hub"; and when all three yield None it returns None having
    done nothing but the three searches and one error record: no path of the
    repository is probed or opened. *)
Theorem base_dir_fallback (k : repo_kind) (ident : string) (w : world) :
  let t1 := trace (run (cache_resolver k) w) in
  let t2 := trace (run HfHome w) in
  let t3 := trace (run XdgCache w) in
  (forall b,
      result (run (cache_resolver k) w) = Returned (Some b) ->
      find_dir k ident w = after t1 (find_dir_from k (Some b) ident w))
  /\ (forall hf_home,
        result (run (cache_resolver k) w) = Returned None ->
        result (run HfHome w) = Returned (Some hf_home) ->
        find_dir k ident w
        = after (t1 ++ t2)
            (find_dir_from k (Some (OsPath.join hf_home [cache_subdir k]))
               ident w))
  /\ (forall xdg_cache_home,
        result (run (cache_resolver k) w) = Returned None ->
        result (run HfHome w) = Returned None ->
        result (run XdgCache w) = Returned (Some xdg_cache_home) ->
        find_dir k ident w
        = after (t1 ++ t2 ++ t3)
            (find_dir_from k
               (Some (OsPath.join xdg_cache_home
                        ["huggingface/" +:+ cache_subdir k]))
               ident w))
  /\ (result (run (cache_resolver k) w) = Returned None ->
      result (run HfHome w) = Returned None ->
      result (run XdgCache w) = Returned None ->
      find_dir k ident w
      = (Returned None, t1 ++ t2 ++ t3 ++ [Log ERROR no_cache_error])).
Proof.
  intros t1 t2 t3. subst t1 t2 t3.
  rewrite find_dir_split. unfold base_dir, base_trace.
  split; [|split; [|split]].
  - intros b ->. by rewrite app_nil_r.
  - intros h -> ->. by rewrite app_nil_r.
  - intros x -> -> ->.
    rewrite <- join_huggingface by (by destruct k). done.
  - intros -> -> ->. rewrite find_dir_from_none.
    unfold after; simpl. by rewrite <- !app_assoc.
Qed.

Lemma base_dir_fallback_witness :
  find_model_dir "acme/widget" Sample.w
  = after (trace (find_hf_hub_dir Sample.w))
      (find_model_dir_from (Some "/tmp/hf/hub") "acme/widget" Sample.w)
  /\ find_model_dir "acme/widget" Sample.w_bare
     = after (trace (find_hf_hub_dir Sample.w_bare)
              ++ trace (find_hf_home_dir Sample.w_bare))
         (find_model_dir_from (Some "/tmp/hf/hub") "acme/widget" Sample.w_bare)
  /\ find_datasets_dir "acme/rows" Sample.w_xdg
     = after (trace (find_hf_datasets_dir Sample.w_xdg)
              ++ trace (find_hf_home_dir Sample.w_xdg)
              ++ trace (find_xdg_cache_home Sample.w_xdg))
         (find_datasets_dir_from (Some "/home/u/.cache/huggingface/datasets")
            "acme/rows" Sample.w_xdg)
  /\ find_model_dir "acme/widget" Sample.w_none
     = (Returned None,
        trace (find_hf_hub_dir Sample.w_none)
        ++ trace (find_hf_home_dir Sample.w_none)
        ++ trace (find_xdg_cache_home Sample.w_none)
        ++ [Log ERROR "Could not find a suitable cache directory."]).
Proof.
  split; [|split; [|split]].
  - apply (proj1 (base_dir_fallback Model "acme/widget" Sample.w)
             "/tmp/hf/hub"); reflexivity.
  - apply (proj1 (proj2 (base_dir_fallback Model "acme/widget" Sample.w_bare))
             "/tmp/hf"); reflexivity.
  - apply (proj1 (proj2 (proj2
             (base_dir_fallback Dataset "acme/rows" Sample.w_xdg)))
             "/home/u/.cache"); reflexivity.
  - apply (proj2 (proj2 (proj2
             (base_dir_fallback Model "acme/widget" Sample.w_none))));
      reflexivity.
Defined.

(** ** The snapshot resolvers: from the base directory to the snapshot *)

Lemma repo_path_eq (k : repo_kind) (ident : string) :
  repo_path k ident = repo_prefix k +:+ slashes_to_dashes ident.
Proof. destruct k; simpl; unfold model_path, dataset_path; by rewrite replace_slash. Qed.

(** The first thing a snapshot resolver does with its base directory is to
    probe the repository directory. *)
Lemma find_dir_from_first_probe (k : repo_kind) (b ident : string) (w : world) :
  exists r t,
    find_dir_from k (Some b) ident w = (r, PathExists (repo_dir k b ident) :: t).
Proof.
  destruct (exists_in w (repo_dir k b ident)) eqn:Hd.
  - destruct (fs w !! refs_main (repo_dir k b ident)) as [[|[c| |]]|] eqn:Hr.
    2:{ rewrite (find_dir_from_text k b ident w c Hd Hr).
        clear Hd. destruct (exists_in w _); eexists _, _; reflexivity. }
    all: erewrite find_dir_from_unreadable by (rewrite ?Hr; done);
      eexists _, _; reflexivity.
  - rewrite find_dir_from_missing by done. eexists _, _; reflexivity.
Qed.

(** C5. For every identifier, the name of the repository's cache
    sub-directory computed by find_model_dir is "models--" followed by the
    identifier with every '/' replaced by "--" (for find_datasets_dir the
    prefix is "datasets--"); for "org/name" it is exactly "models--org--name";
    and find_model_dir (resp. find_datasets_dir) uses that name for the
    identifier it is given: once its base directory is resolved, the first
    thing the call does is to probe the base directory joined with that
    name. *)
Theorem repo_dir_name (ident : string) :
  model_path ident = "models--" +:+ slashes_to_dashes ident
  /\ dataset_path ident = "datasets--" +:+ slashes_to_dashes ident
  /\ model_path "org/name" = "models--org--name"
  /\ dataset_path "org/name" = "datasets--org--name"
  /\ forall (k : repo_kind) (b : string) (w : world),
       base_dir k w = Some b ->
       exists r t,
         find_dir k ident w
         = (r, base_trace k w
               ++ PathExists
                    (OsPath.join b [repo_prefix k +:+ slashes_to_dashes ident])
                  :: t).
Proof.
  split; [apply (repo_path_eq Model)|].
  split; [apply (repo_path_eq Dataset)|].
  split; [reflexivity|]. split; [reflexivity|].
  intros k b w Hb. rewrite find_dir_split, Hb, <- repo_path_eq.
  destruct (find_dir_from_first_probe k b ident w) as (r & t & ->).
  by exists r, t.
Qed.

Lemma repo_dir_name_witness :
  exists r t,
    find_model_dir "org/name" Sample.w
    = (r, [PathExists "/tmp/hf/hub"; PathIsdir "/tmp/hf/hub"]
          ++ PathExists "/tmp/hf/hub/models--org--name" :: t).
Proof.
  apply (proj2 (proj2 (proj2 (proj2 (repo_dir_name "org/name"))))
           Model "/tmp/hf/hub" Sample.w).
  reflexivity.
Defined.

Lemma append_empty_r (s : string) : s +:+ "" = s.
Proof.
  induction s as [|c s IH]; [done|].
  change (String c s +:+ "") with (String c (s +:+ "")). by rewrite IH.
Qed.

Lemma rstrip_token (t e : string) :
  no_space t = true -> Str.rstrip e = "" -> Str.rstrip (t +:+ e) = t.
Proof.
  intros Ht He. induction t as [|c t IH]; [done|].
  change (String c t +:+ e) with (String c (t +:+ e)).
  cbn [no_space] in Ht.
  apply andb_true_iff in Ht as [[_ Hc]%andb_true_iff Ht].
  cbn [Str.rstrip]. rewrite IH by done. destruct t; [|done].
  by destruct (Str.isspace c).
Qed.

Lemma drop_line_endings_app (a b : string) :
  drop_line_endings (a +:+ b) = drop_line_endings a +:+ drop_line_endings b.
Proof.
  induction a as [|c a IH]; [done|].
  change (String c a +:+ b) with (String c (a +:+ b)).
  rewrite !drop_line_endings_cons, IH.
  by destruct (bool_decide (c = "013"%char) || bool_decide (c = "010"%char)).
Qed.

Lemma isspace_line_ending (c : ascii) :
  bool_decide (c = "013"%char) || bool_decide (c = "010"%char) = true ->
  Str.isspace c = true.
Proof.
  intros [Hc|Hc]%orb_true_iff; apply bool_decide_eq_true in Hc; by subst c.
Qed.

Lemma drop_line_endings_token (t : string) :
  no_space t = true -> drop_line_endings t = t.
Proof.
  induction t as [|c t IH]; [done|]. cbn [no_space].
  intros [[_ Hc]%andb_true_iff Ht]%andb_true_iff.
  rewrite drop_line_endings_cons, IH by done.
  destruct (bool_decide (c = "013"%char) || bool_decide (c = "010"%char))
    eqn:He; [|done].
  apply isspace_line_ending in He. by rewrite He in Hc.
Qed.

(** What a snapshot resolver does once its base directory is [b] and the
    repository directory exists with a readable pointer file. *)
Lemma find_dir_text (k : repo_kind) (ident : string) (w : world)
    (b contents : string) :
  let d := repo_dir k b ident in
  let l := snapshot_path d (oid_of contents) in
  base_dir k w = Some b ->
  exists_in w d = true ->
  fs w !! refs_main d = Some (File (Text contents)) ->
  result (find_dir k ident w) = Returned (if exists_in w l then Some l else None).
Proof.
  intros d l Hb Hd Hr.
  rewrite find_dir_split, Hb, result_after.
  rewrite (find_dir_from_text k b ident w contents Hd Hr).
  fold d l. by destruct (exists_in w l).
Qed.

(** C6, as the spec states it, fails: the object identifier is not the
    contents of refs/main with trailing whitespace stripped.  In
    [Sample.w_spaced] the pointer file of acme/widget holds "abc123 " and a
    line feed, and the snapshot named by the stripped contents, "abc123",
    exists; find_model_dir keeps the space, looks for "abc123 " and returns
    None. *)
Lemma oid_is_not_rstrip :
  ~ (forall (k : repo_kind) (ident : string) (w : world) (b contents : string),
        let d := repo_dir k b ident in
        let l := snapshot_path d (Str.rstrip contents) in
        base_dir k w = Some b ->
        exists_in w d = true ->
        fs w !! refs_main d = Some (File (Text contents)) ->
        result (find_dir k ident w)
        = Returned (if exists_in w l then Some l else None)).
Proof.
  intros H.
  specialize (H Model "acme/widget" Sample.w_spaced "/tmp/hf/hub"
                ("abc123 " +:+ LF) eq_refl eq_refl eq_refl).
  vm_compute in H. discriminate H.
Qed.

(** C6, amended.  In find_model_dir and find_datasets_dir the object
    identifier is the contents of <repo-dir>/refs/main with every line ending
    removed: the file is read in text mode, which turns CR LF and CR into a
    line feed, and every line feed of the text is then removed, wherever it
    stands, so that no carriage return and no line feed of the file is kept.
    Nothing else is removed: a space or a tab, trailing or not, stays in the
    identifier.  The snapshot path is formed from it, and returned when it
    exists.  For a pointer file that holds a token without whitespace
    followed by one line ending (LF, CR LF or CR), this is the contents with
    trailing whitespace stripped. *)
Theorem oid_drops_line_endings (k : repo_kind) (ident : string) (w : world)
    (b contents : string) :
  let d := repo_dir k b ident in
  let l := snapshot_path d (drop_line_endings contents) in
  base_dir k w = Some b ->
  exists_in w d = true ->
  fs w !! refs_main d = Some (File (Text contents)) ->
  result (find_dir k ident w) = Returned (if exists_in w l then Some l else None)
  /\ (forall t ending,
        no_space t = true ->
        ending = LF \/ ending = CR +:+ LF \/ ending = CR ->
        contents = t +:+ ending ->
        drop_line_endings contents = Str.rstrip contents).
Proof.
  intros d l Hb Hd Hr. split.
  - subst l. rewrite <- oid_of_eq. by apply find_dir_text.
  - intros t ending Ht He ->.
    rewrite drop_line_endings_app, drop_line_endings_token by done.
    rewrite rstrip_token; [|done|by destruct He as [->|[->| ->]]].
    destruct He as [->|[->| ->]]; apply append_empty_r.
Qed.

Lemma oid_drops_line_endings_witness :
  result (find_model_dir "acme/widget" Sample.w)
  = Returned (Some "/tmp/hf/hub/models--acme--widget/snapshots/abc123")
  /\ result (find_model_dir "acme/widget" Sample.w_crlf)
     = Returned (Some "/tmp/hf/hub/models--acme--widget/snapshots/abc123")
  /\ result (find_datasets_dir "acme/rows" Sample.w_spaced) = Returned None
  /\ drop_line_endings ("abc123" +:+ CR +:+ LF)
     = Str.rstrip ("abc123" +:+ CR +:+ LF).
Proof.
  split; [|split; [|split]].
  - apply (proj1 (oid_drops_line_endings Model "acme/widget" Sample.w
                    "/tmp/hf/hub" ("abc123" +:+ LF) eq_refl eq_refl eq_refl)).
  - apply (proj1 (oid_drops_line_endings Model "acme/widget" Sample.w_crlf
                    "/tmp/hf/hub" ("abc123" +:+ CR +:+ LF)
                    eq_refl eq_refl eq_refl)).
  - apply (proj1 (oid_drops_line_endings Dataset "acme/rows" Sample.w_spaced
                    "/tmp/hf/datasets" ("fee1 " +:+ LF) eq_refl eq_refl eq_refl)).
  - apply (proj2 (oid_drops_line_endings Model "acme/widget" Sample.w_crlf
                    "/tmp/hf/hub" ("abc123" +:+ CR +:+ LF)
                    eq_refl eq_refl eq_refl) "abc123" (CR +:+ LF));
      [reflexivity | right; left; reflexivity | reflexivity].
Defined.

Lemma opened_base_trace (k : repo_kind) (w : world) : opened (base_trace k w) = [].
Proof.
  unfold base_trace. rewrite !trace_run, opened_app, opened_search_trace.
  destruct (result _) as [[?|]|]; [done|..];
    rewrite opened_app, opened_search_trace;
    destruct (result _) as [[?|]|]; by rewrite ?opened_search_trace.
Qed.

(** C7. When the base directory is resolved but the repository directory
    <base>/models--<ns>--<name> (resp. <base>/datasets--<ns>--<name>) does not
    exist, find_model_dir (resp. find_datasets_dir) returns None, and its trace
    holds no [Open]: the pointer file is never read. *)
Theorem missing_repo_no_read (k : repo_kind) (ident : string) (w : world)
    (b : string) :
  base_dir k w = Some b ->
  exists_in w (repo_dir k b ident) = false ->
  result (find_dir k ident w) = Returned None
  /\ opened (trace (find_dir k ident w)) = [].
Proof.
  intros Hb Hd.
  rewrite find_dir_split, Hb, find_dir_from_missing by done.
  split; [done|].
  by rewrite trace_after, opened_app, opened_base_trace.
Qed.

Lemma missing_repo_no_read_witness :
  (result (find_model_dir "acme/gadget" Sample.w) = Returned None
   /\ opened (trace (find_model_dir "acme/gadget" Sample.w)) = [])
  /\ (result (find_datasets_dir "acme/columns" Sample.w) = Returned None
      /\ opened (trace (find_datasets_dir "acme/columns" Sample.w)) = []).
Proof.
  split.
  - apply (missing_repo_no_read Model "acme/gadget" Sample.w "/tmp/hf/hub");
      reflexivity.
  - apply (missing_repo_no_read Dataset "acme/columns" Sample.w
             "/tmp/hf/datasets"); reflexivity.
Defined.

(** C8. When the repository directory and a readable refs/main exist but
    <repo-dir>/snapshots/<object-identifier> does not, find_model_dir (and
    find_datasets_dir) returns None: the outcome is a returned value, not a
    raised exception. *)
Theorem missing_snapshot_is_absence (k : repo_kind) (ident : string) (w : world)
    (b contents : string) :
  let d := repo_dir k b ident in
  base_dir k w = Some b ->
  exists_in w d = true ->
  fs w !! refs_main d = Some (File (Text contents)) ->
  exists_in w (snapshot_path d (oid_of contents)) = false ->
  result (find_dir k ident w) = Returned None.
Proof.
  intros d Hb Hd Hr Hl.
  rewrite (find_dir_text k ident w b contents Hb Hd Hr).
  fold d. by rewrite Hl.
Qed.

Lemma missing_snapshot_is_absence_witness :
  result (find_model_dir "acme/widget" Sample.w_no_snapshot) = Returned None
  /\ result (find_datasets_dir "acme/rows" Sample.w_no_snapshot) = Returned None.
Proof.
  split.
  - apply (missing_snapshot_is_absence Model "acme/widget" Sample.w_no_snapshot
             "/tmp/hf/hub" ("abc123" +:+ LF)); reflexivity.
  - apply (missing_snapshot_is_absence Dataset "acme/rows" Sample.w_no_snapshot
             "/tmp/hf/datasets" ("fee1" +:+ LF)); reflexivity.
Defined.

(** C9. When the repository directory exists but refs/main is missing or
    cannot be read as text (no such path, no permission, not UTF-8, a
    directory), find_model_dir and find_datasets_dir do not return: the
    exception of the failed read is the outcome of the call. *)
Theorem pointer_failure_propagates (k : repo_kind) (ident : string) (w : world)
    (b : string) :
  let d := repo_dir k b ident in
  base_dir k w = Some b ->
  exists_in w d = true ->
  (forall contents, fs w !! refs_main d <> Some (File (Text contents))) ->
  exists e,
    read_error (fs w !! refs_main d) = Some e
    /\ result (find_dir k ident w) = Raised e.
Proof.
  intros d Hb Hd Hr.
  assert (He : exists e, read_error (fs w !! refs_main d) = Some e).
  { destruct (fs w !! refs_main d) as [[|[c| |]]|]; simpl; eauto.
    by destruct (Hr c). }
  destruct He as [e He]. exists e. split; [done|].
  by rewrite find_dir_split, Hb, (find_dir_from_unreadable k b ident w e Hd He).
Qed.

Lemma pointer_failure_propagates_witness :
  exists e,
    read_error (fs Sample.w_no_pointer
                !! refs_main (repo_dir Model "/tmp/hf/hub" "acme/widget"))
    = Some e
    /\ result (find_model_dir "acme/widget" Sample.w_no_pointer) = Raised e.
Proof.
  apply (pointer_failure_propagates Model "acme/widget" Sample.w_no_pointer
           "/tmp/hf/hub"); [reflexivity | reflexivity |].
  intros contents H. vm_compute in H. discriminate H.
Defined.

Lemma run_is_directory (r : resolver) (w : world) (p : string) :
  result (run r w) = Returned (Some p) -> is_directory w p.
Proof.
  rewrite result_run. intros [= Hp]. by apply pick_is_directory in Hp.
Qed.

(** C10. The snapshot path is only tested for existence.  Whenever
    <repo-dir>/snapshots/<object-identifier> of the requested repository is a
    regular file, find_model_dir (resp. find_datasets_dir) returns that path;
    there is a world in which this happens; whereas a path returned by any of
    the four base resolvers is a directory in every world. *)
Theorem snapshot_may_be_a_file :
  (forall (k : repo_kind) (ident : string) (w : world) (b contents : string)
          (data : file_data),
      let d := repo_dir k b ident in
      let l := snapshot_path d (oid_of contents) in
      base_dir k w = Some b ->
      exists_in w d = true ->
      fs w !! refs_main d = Some (File (Text contents)) ->
      fs w !! l = Some (File data) ->
      result (find_dir k ident w) = Returned (Some l))
  /\ (forall k : repo_kind,
        exists (w : world) (ident b contents : string) (data : file_data),
          let d := repo_dir k b ident in
          let l := snapshot_path d (oid_of contents) in
          base_dir k w = Some b
          /\ exists_in w d = true
          /\ fs w !! refs_main d = Some (File (Text contents))
          /\ fs w !! l = Some (File data)
          /\ result (find_dir k ident w) = Returned (Some l))
  /\ (forall (r : resolver) (w : world) (p : string),
        result (run r w) = Returned (Some p) -> is_directory w p).
Proof.
  split; [|split; [|apply run_is_directory]].
  - intros k ident w b contents data d l Hb Hd Hr Hl.
    rewrite (find_dir_text k ident w b contents Hb Hd Hr). fold d l.
    unfold exists_in. by rewrite Hl.
  - intros [|]; exists Sample.w_file_snapshot.
    + by exists "acme/widget", "/tmp/hf/hub", ("abc123" +:+ LF), (Text "").
    + by exists "acme/rows", "/tmp/hf/datasets", ("fee1" +:+ LF), (Text "").
Qed.

Lemma snapshot_may_be_a_file_witness :
  (fs Sample.w_file_snapshot
   !! "/tmp/hf/hub/models--acme--widget/snapshots/abc123"
   = Some (File (Text ""))
   /\ result (find_model_dir "acme/widget" Sample.w_file_snapshot)
      = Returned (Some "/tmp/hf/hub/models--acme--widget/snapshots/abc123"))
  /\ (fs Sample.w_file_snapshot
      !! "/tmp/hf/datasets/datasets--acme--rows/snapshots/fee1"
      = Some (File (Text ""))
      /\ result (find_datasets_dir "acme/rows" Sample.w_file_snapshot)
         = Returned (Some "/tmp/hf/datasets/datasets--acme--rows/snapshots/fee1"))
  /\ is_directory Sample.w "/tmp/hf/hub".
Proof.
  split; [|split].
  - split; [reflexivity|].
    apply (proj1 snapshot_may_be_a_file Model "acme/widget"
             Sample.w_file_snapshot "/tmp/hf/hub" ("abc123" +:+ LF) (Text ""));
      reflexivity.
  - split; [reflexivity|].
    apply (proj1 snapshot_may_be_a_file Dataset "acme/rows"
             Sample.w_file_snapshot "/tmp/hf/datasets" ("fee1" +:+ LF)
             (Text "")); reflexivity.
  - apply (proj2 (proj2 snapshot_may_be_a_file) HfHub Sample.w "/tmp/hf/hub").
    reflexivity.
Defined.

(** * Further properties of the module *)

(** ** The base resolvers: absence, logging, and what is never done *)

Lemma pick_none (w : world) (cs : list (string * string)) :
  pick w cs = None <-> Forall (fun c => ~ is_directory w c.1) cs.
Proof.
  induction cs as [|[p msg] cs IH]; simpl.
  - split; [constructor | done].
  - rewrite Forall_cons, <- IH, <- valid_dir_false. simpl.
    destruct (valid_dir w p); intuition congruence.
Qed.

Lemma logged_app (t u : list event) : logged (t ++ u) = logged t ++ logged u.
Proof. apply List.filter_app. Qed.

Lemma errors_app (t u : list event) : errors (t ++ u) = errors t ++ errors u.
Proof. apply List.filter_app. Qed.

Lemma logged_probes (w : world) (p : string) : logged (probes w p) = [].
Proof. unfold probes. by destruct (exists_in w p). Qed.

Lemma errors_probes (w : world) (p : string) : errors (probes w p) = [].
Proof. unfold probes. by destruct (exists_in w p). Qed.

Lemma errors_search_trace (w : world) (cs : list (string * string)) :
  errors (search_trace w cs) = [].
Proof.
  induction cs as [|[c msg] cs IH]; simpl; [done|].
  destruct (valid_dir w c); rewrite ?errors_app, errors_probes; done.
Qed.

Lemma logged_search_trace_none (w : world) (cs : list (string * string)) :
  pick w cs = None -> logged (search_trace w cs) = map warning_of cs.
Proof.
  induction cs as [|[c msg] cs IH]; simpl; [done|].
  destruct (valid_dir w c); [done|]. intros Hcs.
  rewrite logged_app, logged_probes. simpl. by rewrite IH.
Qed.

(** X1. A base resolver returns None exactly when none of its candidates (the
    value of its primary variable when set, HF_HOME joined with its
    sub-directory when it has one and HF_HOME is set, and its default under
    the home directory) is a directory. *)
Theorem absent_iff_no_candidate (r : resolver) (w : world) :
  result (run r w) = Returned None
  <-> Forall (fun c => ~ is_directory w c.1) (candidates r w).
Proof.
  rewrite result_run, <- pick_none. split; [by intros [= ->] | by intros ->].
Qed.

Lemma absent_iff_no_candidate_witness :
  Forall (fun c => ~ is_directory Sample.w_bare c.1)
    (candidates HfHub Sample.w_bare).
Proof.
  apply (proj1 (absent_iff_no_candidate HfHub Sample.w_bare)). reflexivity.
Defined.

(** X2. When a base resolver returns None it has logged one warning for
    each of its candidates, in the order it tried them, and nothing else. *)
Theorem absence_warns_each_candidate (r : resolver) (w : world) :
  result (run r w) = Returned None ->
  logged (trace (run r w)) = map warning_of (candidates r w).
Proof.
  rewrite result_run, trace_run. intros [= Hp].
  by apply logged_search_trace_none.
Qed.

Lemma absence_warns_each_candidate_witness :
  logged (trace (find_hf_hub_dir Sample.w_bare))
  = [Log WARNING "Invalid HF_HOME directory: /tmp/hf/hub";
     Log WARNING
       "Invalid default HuggingFace Hub directory: /home/u/.cache/huggingface/hub"].
Proof.
  apply (absence_warns_each_candidate HfHub Sample.w_bare). reflexivity.
Defined.

(** X3. A base resolver never raises, never opens a file and never logs an
    error: in every world its outcome is a returned value, and its trace
    holds only existence and directory probes and warnings. *)
Theorem resolver_is_quiet (r : resolver) (w : world) :
  (exists o, result (run r w) = Returned o)
  /\ opened (trace (run r w)) = []
  /\ errors (trace (run r w)) = [].
Proof.
  rewrite result_run, trace_run. split; [by eexists|].
  split; [apply opened_search_trace | apply errors_search_trace].
Qed.

(** X4. When the primary variable of a base resolver names a directory, the
    resolver does exactly two filesystem probes, both on that value, and logs
    nothing: no other candidate is looked at. *)
Theorem primary_hit_trace (r : resolver) (w : world) (v : string) :
  environ w !! primary_var r = Some v ->
  is_directory w v ->
  trace (run r w) = [PathExists v; PathIsdir v].
Proof.
  intros Hv Hd. rewrite trace_run. unfold candidates. rewrite Hv.
  cbn [app search_trace].
  rewrite (proj2 (valid_dir_true w v) Hd).
  unfold probes, exists_in. by rewrite Hd.
Qed.

Lemma primary_hit_trace_witness :
  trace (find_xdg_cache_home Sample.w_all)
  = [PathExists "/opt/xdg"; PathIsdir "/opt/xdg"].
Proof.
  apply (primary_hit_trace XdgCache Sample.w_all); reflexivity.
Defined.

(** X5. When the primary variable of a base resolver is unset or names no
    directory, and the resolver has no second stage (find_hf_home_dir,
    find_xdg_cache_home) or HF_HOME is unset, the result is the default under
    the home directory when that is a directory, and None otherwise: an
    invalid primary value is skipped, it does not fail the call. *)
Theorem default_stage (r : resolver) (w : world) :
  primary_valid r w = false ->
  secondary_subdir r = None \/ environ w !! "HF_HOME" = None ->
  result (run r w)
  = Returned
      (if valid_dir w (OsPath.join (home w) (default_suffix r))
       then Some (OsPath.join (home w) (default_suffix r))
       else None).
Proof.
  intros Hp Hs. rewrite result_run, pick_skip_primary by done.
  destruct Hs as [-> | Hh]; [done|].
  rewrite Hh. by destruct (secondary_subdir r).
Qed.

Lemma default_stage_witness :
  result (find_xdg_cache_home Sample.w_xdg) = Returned (Some "/home/u/.cache")
  /\ result (find_hf_hub_dir Sample.w_xdg) = Returned None.
Proof.
  split.
  - apply (default_stage XdgCache Sample.w_xdg); [reflexivity | by left].
  - apply (default_stage HfHub Sample.w_xdg); [reflexivity | by right].
Defined.

(** X6. The fallback bases of the snapshot resolvers were already rejected.
    When the hub (resp. datasets) resolver yields None and find_hf_home_dir
    yields a directory, that directory joined with "hub" (resp. "datasets"),
    the base then used, is not a directory; and the same holds for the base
    built from find_xdg_cache_home when XDG_CACHE_HOME is unset. *)
Theorem fallback_base_is_stale (k : repo_kind) (w : world) :
  (forall hf_home,
      result (run (cache_resolver k) w) = Returned None ->
      result (run HfHome w) = Returned (Some hf_home) ->
      ~ is_directory w (OsPath.join hf_home [cache_subdir k]))
  /\ (forall xdg_cache_home,
        result (run (cache_resolver k) w) = Returned None ->
        environ w !! "XDG_CACHE_HOME" = None ->
        result (run XdgCache w) = Returned (Some xdg_cache_home) ->
        ~ is_directory w
            (OsPath.join xdg_cache_home ["huggingface"; cache_subdir k])).
Proof.
  split.
  - intros h. rewrite !result_run. intros [= Hc] [= Hh].
    apply valid_dir_false. revert Hc Hh. unfold candidates, OsPath.join.
    destruct k; simpl;
      destruct (environ w !! "HF_HOME") as [v|];
      destruct (environ w !! _) as [v'|]; simpl;
      repeat (case_match; simpl); intros; simplify_eq; done.
  - intros x. rewrite !result_run. intros [= Hc] Hx [= Hp].
    apply valid_dir_false. revert Hc Hp. unfold candidates, OsPath.join.
    destruct k; simpl; rewrite Hx;
      destruct (environ w !! "HF_HOME") as [v|];
      destruct (environ w !! _) as [v'|]; simpl;
      repeat (case_match; simpl); intros; simplify_eq; done.
Qed.

Lemma fallback_base_is_stale_witness :
  ~ is_directory Sample.w_bare "/tmp/hf/hub"
  /\ ~ is_directory Sample.w_xdg "/home/u/.cache/huggingface/datasets".
Proof.
  split.
  - apply (proj1 (fallback_base_is_stale Model Sample.w_bare) "/tmp/hf");
      reflexivity.
  - apply (proj2 (fallback_base_is_stale Dataset Sample.w_xdg) "/home/u/.cache");
      reflexivity.
Defined.

(** ** The snapshot resolvers: every run is one of five *)

Lemma find_dir_run_ok (k : repo_kind) (ident : string) (w : world) :
  find_dir_run k ident w (find_dir k ident w).
Proof.
  rewrite find_dir_split.
  destruct (base_dir k w) as [b|] eqn:Hb.
  2:{ rewrite find_dir_from_none. by apply NoBase. }
  destruct (exists_in w (repo_dir k b ident)) eqn:Hd.
  2:{ rewrite find_dir_from_missing by done. by apply NoRepo. }
  destruct (read_error (fs w !! refs_main (repo_dir k b ident))) as [e|] eqn:He.
  { rewrite (find_dir_from_unreadable k b ident w e Hd He).
    by apply BadPointer. }
  destruct (fs w !! refs_main (repo_dir k b ident)) as [[|[c| |]]|] eqn:Hr;
    try discriminate He.
  rewrite (find_dir_from_text k b ident w c Hd Hr).
  destruct (exists_in w (snapshot_path _ _)) eqn:Hl.
  - by apply Found.
  - by apply NoSnapshot.
Qed.

Lemma errors_base_trace (k : repo_kind) (w : world) : errors (base_trace k w) = [].
Proof.
  unfold base_trace. rewrite !trace_run, errors_app, errors_search_trace.
  destruct (result _) as [[?|]|]; [done|..];
    rewrite errors_app, errors_search_trace;
    destruct (result _) as [[?|]|]; by rewrite ?errors_search_trace.
Qed.

(** X7. The only file a snapshot resolver ever opens is the refs/main pointer
    of the requested repository, at most once, and only after the repository
    directory was found to exist. *)
Theorem opens_only_the_pointer (k : repo_kind) (ident : string) (w : world) :
  opened (trace (find_dir k ident w)) = []
  \/ exists b,
       base_dir k w = Some b
       /\ exists_in w (repo_dir k b ident) = true
       /\ opened (trace (find_dir k ident w))
          = [Open (refs_main (repo_dir k b ident))].
Proof.
  destruct (find_dir_run_ok k ident w); unfold trace; simpl;
    rewrite opened_app, opened_base_trace; simpl; eauto.
Qed.

(** X8. A snapshot resolver raises only from the read of the pointer file:
    when a call raises [e], the base directory was resolved, the repository
    directory exists, and [e] is the error of opening or reading its
    refs/main. *)
Theorem raise_comes_from_pointer (k : repo_kind) (ident : string) (w : world)
    (e : exn) :
  result (find_dir k ident w) = Raised e ->
  exists b,
    base_dir k w = Some b
    /\ exists_in w (repo_dir k b ident) = true
    /\ read_error (fs w !! refs_main (repo_dir k b ident)) = Some e.
Proof.
  destruct (find_dir_run_ok k ident w); unfold result; simpl;
    intros [= <-]; eauto.
Qed.

Lemma raise_comes_from_pointer_witness :
  exists b,
    base_dir Model Sample.w_no_pointer = Some b
    /\ exists_in Sample.w_no_pointer (repo_dir Model b "acme/widget") = true
    /\ read_error (fs Sample.w_no_pointer
                   !! refs_main (repo_dir Model b "acme/widget"))
       = Some NoSuchPathError.
Proof.
  apply (raise_comes_from_pointer Model "acme/widget" Sample.w_no_pointer).
  reflexivity.
Defined.

(** X9. A path returned by a snapshot resolver is
    <base>/<repo-name>/snapshots/<oid> for the resolved base directory and the
    text of the pointer file, and it exists: the repository directory exists
    and its refs/main is a readable text file. *)
Theorem found_snapshot_is_sound (k : repo_kind) (ident : string) (w : world)
    (p : string) :
  result (find_dir k ident w) = Returned (Some p) ->
  exists b contents,
    base_dir k w = Some b
    /\ exists_in w (repo_dir k b ident) = true
    /\ fs w !! refs_main (repo_dir k b ident) = Some (File (Text contents))
    /\ p = snapshot_path (repo_dir k b ident) (oid_of contents)
    /\ exists_in w p = true.
Proof.
  destruct (find_dir_run_ok k ident w); unfold result; simpl;
    intros [= <-]; eauto 10.
Qed.

Lemma found_snapshot_is_sound_witness :
  exists b contents,
    base_dir Dataset Sample.w = Some b
    /\ exists_in Sample.w (repo_dir Dataset b "acme/rows") = true
    /\ fs Sample.w !! refs_main (repo_dir Dataset b "acme/rows")
       = Some (File (Text contents))
    /\ "/tmp/hf/datasets/datasets--acme--rows/snapshots/fee1"
       = snapshot_path (repo_dir Dataset b "acme/rows") (oid_of contents)
    /\ exists_in Sample.w "/tmp/hf/datasets/datasets--acme--rows/snapshots/fee1"
       = true.
Proof.
  apply (found_snapshot_is_sound Dataset "acme/rows" Sample.w). reflexivity.
Defined.

(** X10. A snapshot resolver logs an error exactly when it returns None, and
    then exactly one, as its last action; a call that returns a path or raises
    has logged no error. *)
Theorem error_logged_iff_absent (k : repo_kind) (ident : string) (w : world) :
  match result (find_dir k ident w) with
  | Returned None =>
      exists t msg,
        trace (find_dir k ident w) = t ++ [Log ERROR msg] /\ errors t = []
  | _ => errors (trace (find_dir k ident w)) = []
  end.
Proof.
  destruct (find_dir_run_ok k ident w); unfold result, trace; simpl.
  - exists (base_trace k w), no_cache_error. by rewrite errors_base_trace.
  - eexists (base_trace k w ++ [_]), _. rewrite <- app_assoc. split; [done|].
    by rewrite errors_app, errors_base_trace.
  - by rewrite errors_app, errors_base_trace.
  - eexists (base_trace k w ++ [_; _; _; _]), _. rewrite <- app_assoc.
    split; [done|]. by rewrite errors_app, errors_base_trace.
  - by rewrite errors_app, errors_base_trace.
Qed.

(** ** The environment: which variables matter *)

Lemma valid_dir_set_env (k v : string) (w : world) (p : string) :
  valid_dir (set_env k v w) p = valid_dir w p.
Proof. reflexivity. Qed.

Lemma pick_set_env (k v : string) (w : world) (cs : list (string * string)) :
  pick (set_env k v w) cs = pick w cs.
Proof.
  induction cs as [|[p msg] cs IH]; simpl; [done|].
  by rewrite valid_dir_set_env, IH.
Qed.

Lemma search_trace_set_env (k v : string) (w : world)
    (cs : list (string * string)) :
  search_trace (set_env k v w) cs = search_trace w cs.
Proof.
  induction cs as [|[p msg] cs IH]; simpl; [done|].
  by rewrite valid_dir_set_env, IH.
Qed.

Lemma candidates_set_env (r : resolver) (k v : string) (w : world) :
  k <> primary_var r -> k <> "HF_HOME" ->
  candidates r (set_env k v w) = candidates r w.
Proof.
  intros Hp Hh. unfold candidates, set_env; simpl.
  by rewrite !lookup_insert_ne.
Qed.

Lemma run_set_env (r : resolver) (k v : string) (w : world) :
  k <> primary_var r -> k <> "HF_HOME" ->
  run r (set_env k v w) = run r w.
Proof.
  intros Hp Hh.
  by rewrite !run_eq, candidates_set_env, pick_set_env, search_trace_set_env.
Qed.

(** Past the choice of the base directory a snapshot resolver reads nothing
    but the filesystem. *)
Lemma find_dir_from_fs (kind : repo_kind) (b : option string) (ident : string)
    (w w' : world) :
  fs w' = fs w ->
  find_dir_from kind b ident w' = find_dir_from kind b ident w.
Proof.
  intros Hfs.
  assert (Hex : forall p, exists_in w' p = exists_in w p)
    by (intros p; unfold exists_in; by rewrite Hfs).
  destruct b as [b|]; [|by rewrite !find_dir_from_none].
  destruct (exists_in w (repo_dir kind b ident)) eqn:Hd.
  2:{ rewrite !find_dir_from_missing; [done..|]. by rewrite Hex. }
  destruct (read_error (fs w !! refs_main (repo_dir kind b ident)))
    as [e|] eqn:He.
  { rewrite (find_dir_from_unreadable kind b ident w e Hd He).
    apply find_dir_from_unreadable; [by rewrite Hex | by rewrite Hfs]. }
  destruct (fs w !! refs_main (repo_dir kind b ident)) as [[|[c| |]]|] eqn:Hr;
    try discriminate He.
  rewrite (find_dir_from_text kind b ident w c Hd Hr).
  rewrite (find_dir_from_text kind b ident w' c); [|by rewrite Hex|by rewrite Hfs].
  by rewrite Hex.
Qed.

Lemma find_dir_from_set_env (kind : repo_kind) (b : option string)
    (ident k v : string) (w : world) :
  find_dir_from kind b ident (set_env k v w) = find_dir_from kind b ident w.
Proof. by apply find_dir_from_fs. Qed.

(** X11. Only four variables of the environment are looked up.  Setting any
    other variable (TRANSFORMERS_CACHE, say) to any value, the value of
    os.path.expanduser("~") and the filesystem being the same, changes no run
    of any of the six functions: neither the result nor the trace. *)
Theorem other_variables_ignored (k v : string) (w : world) :
  k ∉ consulted ->
  (forall r, run r (set_env k v w) = run r w)
  /\ (forall kind ident,
        find_dir kind ident (set_env k v w) = find_dir kind ident w).
Proof.
  unfold consulted. intros Hk.
  assert (Hrun : forall r, run r (set_env k v w) = run r w).
  { intros r. apply run_set_env; [|set_solver].
    destruct r; simpl; set_solver. }
  split; [done|]. intros kind ident.
  rewrite !find_dir_split. unfold base_dir, base_trace.
  by rewrite !Hrun, find_dir_from_set_env.
Qed.

Lemma other_variables_ignored_witness :
  find_hf_hub_dir (set_env "TRANSFORMERS_CACHE" "/opt/hub" Sample.w)
  = find_hf_hub_dir Sample.w
  /\ find_model_dir "acme/widget"
       (set_env "TRANSFORMERS_CACHE" "/opt/hub" Sample.w)
     = find_model_dir "acme/widget" Sample.w.
Proof.
  assert (Hk : "TRANSFORMERS_CACHE" ∉ consulted)
    by (apply (bool_decide_unpack _); reflexivity).
  split.
  - apply (proj1 (other_variables_ignored "TRANSFORMERS_CACHE" "/opt/hub"
                    Sample.w Hk) HfHub).
  - apply (proj2 (other_variables_ignored "TRANSFORMERS_CACHE" "/opt/hub"
                    Sample.w Hk) Model).
Defined.

(** ** Paths built from the identifier and the pointer file *)

Lemma contains_char_app (c : ascii) (a b : string) :
  contains_char c (a +:+ b) = contains_char c a || contains_char c b.
Proof.
  induction a as [|x a IH]; [done|].
  change (String x a +:+ b) with (String x (a +:+ b)).
  cbn [contains_char]. by rewrite IH, orb_assoc.
Qed.

Lemma slashes_to_dashes_no_slash (s : string) :
  contains_char "/" (slashes_to_dashes s) = false.
Proof.
  induction s as [|c s IH]; [done|]. cbn [slashes_to_dashes].
  destruct (bool_decide (c = "/"%char)) eqn:Hc.
  - by rewrite contains_char_app, IH.
  - cbn [contains_char]. by rewrite Hc, IH.
Qed.

Lemma slashes_to_dashes_app (a b : string) :
  slashes_to_dashes (a +:+ b) = slashes_to_dashes a +:+ slashes_to_dashes b.
Proof.
  induction a as [|c a IH]; [done|].
  change (String c a +:+ b) with (String c (a +:+ b)).
  cbn [slashes_to_dashes]. rewrite IH.
  destruct (bool_decide (c = "/"%char)); [by rewrite append_assoc | done].
Qed.

(** X12. The repository directory always lies directly under the base
    directory: whatever the identifier, the name computed from it holds no
    '/', and joining it to the base appends it (after a '/' unless the base is
    empty or ends with one) without ever discarding the base. *)
Theorem repo_dir_under_base (k : repo_kind) (b ident : string) :
  contains_char "/" (repo_path k ident) = false
  /\ repo_dir k b ident
     = b +:+ (if bool_decide (b = "") || Str.endswith_char b "/"
              then "" else "/")
         +:+ repo_path k ident.
Proof.
  split.
  - rewrite repo_path_eq, contains_char_app, slashes_to_dashes_no_slash.
    by destruct k.
  - unfold repo_dir, OsPath.join; cbn [fold_left]. unfold OsPath.join_step.
    assert (Str.startswith (repo_path k ident) "/" = false) as ->
      by (by destruct k).
    by destruct (bool_decide (b = "") || Str.endswith_char b "/").
Qed.

(** X13. The snapshot path need not lie under the repository directory.
    When the object identifier read from the pointer file starts with '/',
    os.path.join discards the repository directory and "snapshots": the
    resolver tests that absolute path and, when it exists, returns it. *)
Theorem absolute_oid_escapes (k : repo_kind) (ident : string) (w : world)
    (b contents : string) :
  let d := repo_dir k b ident in
  base_dir k w = Some b ->
  exists_in w d = true ->
  fs w !! refs_main d = Some (File (Text contents)) ->
  Str.startswith (oid_of contents) "/" = true ->
  result (find_dir k ident w)
  = Returned (if exists_in w (oid_of contents)
              then Some (oid_of contents) else None).
Proof.
  intros d Hb Hd Hr Habs.
  rewrite (find_dir_text k ident w b contents Hb Hd Hr). fold d.
  assert (snapshot_path d (oid_of contents) = oid_of contents) as ->; [|done].
  unfold snapshot_path, OsPath.join; cbn [fold_left].
  unfold OsPath.join_step at 1. by rewrite Habs.
Qed.

Lemma absolute_oid_escapes_witness :
  result (find_model_dir "acme/widget" Sample.w_absolute)
  = Returned (Some "/srv/weights").
Proof.
  apply (absolute_oid_escapes Model "acme/widget" Sample.w_absolute
           "/tmp/hf/hub" ("/srv/weights" +:+ LF)); reflexivity.
Defined.

Lemma find_dir_from_repo_path (k : repo_kind) (b : option string)
    (i1 i2 : string) (w : world) :
  repo_path k i1 = repo_path k i2 ->
  find_dir_from k b i1 w = find_dir_from k b i2 w.
Proof.
  destruct k, b as [b|]; simpl; intros H; [|done| |done];
    unfold find_model_dir_from, find_datasets_dir_from; by rewrite H.
Qed.

(** X14. Identifiers are not told apart by their slashes: an identifier with
    a '/' and the one with "--" in its place name the same repository
    directory, so each snapshot resolver makes the same run on both. *)
Theorem slash_and_dashes_collide (k : repo_kind) (a b : string) (w : world) :
  repo_path k (a +:+ "/" +:+ b) = repo_path k (a +:+ "--" +:+ b)
  /\ find_dir k (a +:+ "/" +:+ b) w = find_dir k (a +:+ "--" +:+ b) w.
Proof.
  assert (H : repo_path k (a +:+ "/" +:+ b) = repo_path k (a +:+ "--" +:+ b)).
  { rewrite !repo_path_eq, !slashes_to_dashes_app.
    change (slashes_to_dashes "/") with (slashes_to_dashes "--"). done. }
  split; [done|].
  rewrite !find_dir_split. by rewrite (find_dir_from_repo_path k _ _ _ w H).
Qed.





(** ** The base resolvers: what a returned path tells *)

Lemma pick_some (w : world) (cs : list (string * string)) (p : string) :
  pick w cs = Some p ->
  exists cs1 msg cs2,
    cs = cs1 ++ (p, msg) :: cs2
    /\ Forall (fun c => ~ is_directory w c.1) cs1
    /\ is_directory w p
    /\ logged (search_trace w cs) = map warning_of cs1.
Proof.
  induction cs as [|[c msg] cs IH]; simpl; [done|].
  destruct (valid_dir w c) eqn:Hc.
  - intros [= <-]. exists [], msg, cs. split; [done|]. split; [constructor|].
    split; [by apply valid_dir_true|]. apply logged_probes.
  - intros Hp. destruct (IH Hp) as (cs1 & msg' & cs2 & -> & Hcs1 & Hd & Hl).
    exists ((c, msg) :: cs1), msg', cs2. split; [done|].
    split; [constructor; [by apply valid_dir_false | done]|].
    split; [done|].
    rewrite logged_app, logged_probes. simpl. by rewrite Hl.
Qed.

(** X16. A path returned by a base resolver is the first of its candidates
    that is a directory: every candidate tried before it is not a directory,
    and the warnings logged are those of these earlier candidates, one each,
    in order. *)
Theorem returned_is_first_valid (r : resolver) (w : world) (p : string) :
  result (run r w) = Returned (Some p) ->
  exists cs1 msg cs2,
    candidates r w = cs1 ++ (p, msg) :: cs2
    /\ Forall (fun c => ~ is_directory w c.1) cs1
    /\ is_directory w p
    /\ logged (trace (run r w)) = map warning_of cs1.
Proof.
  rewrite result_run, trace_run. intros [= Hp]. by apply pick_some.
Qed.

Lemma returned_is_first_valid_witness :
  exists cs1 msg cs2,
    candidates HfHub Sample.w_stale = cs1 ++ ("/tmp/hf/hub", msg) :: cs2
    /\ Forall (fun c => ~ is_directory Sample.w_stale c.1) cs1
    /\ is_directory Sample.w_stale "/tmp/hf/hub"
    /\ logged (trace (run HfHub Sample.w_stale)) = map warning_of cs1.
Proof.
  apply (returned_is_first_valid HfHub Sample.w_stale). reflexivity.
Defined.
